(** * adhesive: the [StickerPack] model of [stickerpack.py]

    A shallow embedding of [StickerPack.__init__], [StickerPack.add_sticker]
    and [StickerPack.export], together with the parts of the Python runtime
    they lean on: [io.BytesIO] (a byte buffer with a stream position),
    [zipfile.ZipFile] (an ordered list of named entries), [str.encode] to
    UTF-8, and Pillow's [Image] objects (size, format tag, pixel data).

    Pillow's decoders, resampler and encoders are not part of the program;
    they enter as an [ImageCodec] record the definitions are parametrised
    by.  What the program itself relies on from Pillow's [Image] class is
    written out: [Image.resize] returns a fresh image, and a fresh image has
    [format = None]. *)

From Stdlib Require Import String Ascii ZArith List Bool Lia Arith.
From Stdlib Require Import DecimalString DecimalNat.
Import ListNotations.
Open Scope Z_scope.

(** ** Python values *)

(** [bytes]: octets, each in [0, 256). *)
Definition bytes := list Z.

(** [str]: a sequence of Unicode code points. *)
Definition str := list Z.

(** Truth value of a [str]: only the empty string is falsy. *)
Definition truthy (s : str) : bool :=
  match s with
  | [] => false
  | _ :: _ => true
  end.

(** [str(n)] for a non-negative [int]. *)
Definition str_of_nat (n : nat) : string :=
  NilEmpty.string_of_uint (Nat.to_uint n).

Definition lower_ascii (c : ascii) : ascii :=
  let n := nat_of_ascii c in
  if (Nat.leb 65 n && Nat.leb n 90)%bool then ascii_of_nat (n + 32) else c.

(** [str.lower] on ASCII text. *)
Fixpoint lower (s : string) : string :=
  match s with
  | EmptyString => EmptyString
  | String c s' => String (lower_ascii c) (lower s')
  end.

(** ** Module constants *)

Definition STICKER_MAX_PIXELS : Z * Z := (512, 512).
Definition TRAY_MAX_PIXELS : Z * Z := (96, 96).
Definition STICKERS_PER_PACK : nat * nat := (3%nat, 30%nat).

(** ** Exceptions *)

Inductive exn : Type :=
| StickerPackError (msg : string)   (* the module's only exception class *)
| ImagingError                      (* anything Pillow raises *)
| UnicodeEncodeError.               (* [str.encode] on a lone surrogate *)

(** ** [io.BytesIO] *)

Record BytesIO : Type := mkBytesIO {
  getvalue : bytes;   (* the whole buffer *)
  tell : nat          (* the stream position *)
}.

(** [io.BytesIO(initial)]: the buffer holds [initial], the position is 0. *)
Definition BytesIO_new (initial : bytes) : BytesIO := mkBytesIO initial 0.

(** [f.seek(pos)]. *)
Definition seek (f : BytesIO) (pos : nat) : BytesIO :=
  mkBytesIO (getvalue f) pos.

(** [f.write(d)]: [d] goes in at the current position, over the bytes that
    are there; the buffer grows when [d] runs past its end (zero-filled when
    the position was already beyond it); nothing is truncated, and the
    position moves to the end of [d]. *)
Definition write (f : BytesIO) (d : bytes) : BytesIO :=
  let p := tell f in
  let b := getvalue f in
  mkBytesIO (firstn p b ++ repeat 0 (p - length b)%nat ++ d
               ++ skipn (p + length d) b)
            (p + length d)%nat.

(** ** [str.encode("utf-8")] and [bytes.decode("utf-8")] *)

Definition surrogate (c : Z) : bool := (55296 <=? c) && (c <=? 57343).

(** The UTF-8 form of one code point; a lone surrogate cannot be encoded,
    and a number outside the Unicode range is not a character. *)
Definition utf8_encode_cp (c : Z) : option bytes :=
  if c <? 0 then None
  else if c <? 128 then Some [c]
  else if c <? 2048 then Some [192 + c / 64; 128 + c mod 64]
  else if c <? 65536 then
    if surrogate c then None
    else Some [224 + c / 4096; 128 + (c / 64) mod 64; 128 + c mod 64]
  else if c <? 1114112 then
    Some [240 + c / 262144; 128 + (c / 4096) mod 64;
          128 + (c / 64) mod 64; 128 + c mod 64]
  else None.

Fixpoint utf8_encode (s : str) : option bytes :=
  match s with
  | [] => Some []
  | c :: s' =>
      match utf8_encode_cp c, utf8_encode s' with
      | Some x, Some y => Some (x ++ y)
      | _, _ => None
      end
  end.

(** A continuation byte [10xxxxxx]. *)
Definition cont (b : Z) : bool := (128 <=? b) && (b <? 192).

(** The strict decoder: shortest forms only, no surrogates, nothing beyond
    U+10FFFF. *)
Fixpoint utf8_decode (b : bytes) : option str :=
  match b with
  | [] => Some []
  | b0 :: r0 =>
      if (0 <=? b0) && (b0 <? 128) then
        option_map (cons b0) (utf8_decode r0)
      else if (194 <=? b0) && (b0 <? 224) then
        match r0 with
        | b1 :: r1 =>
            if cont b1
            then option_map (cons ((b0 - 192) * 64 + (b1 - 128)))
                            (utf8_decode r1)
            else None
        | _ => None
        end
      else if (224 <=? b0) && (b0 <? 240) then
        match r0 with
        | b1 :: b2 :: r2 =>
            let c := (b0 - 224) * 4096 + (b1 - 128) * 64 + (b2 - 128) in
            if cont b1 && cont b2 && (2048 <=? c) && negb (surrogate c)
            then option_map (cons c) (utf8_decode r2)
            else None
        | _ => None
        end
      else if (240 <=? b0) && (b0 <? 245) then
        match r0 with
        | b1 :: b2 :: b3 :: r3 =>
            let c := (b0 - 240) * 262144 + (b1 - 128) * 4096
                     + (b2 - 128) * 64 + (b3 - 128) in
            if cont b1 && cont b2 && cont b3
               && (65536 <=? c) && (c <? 1114112)
            then option_map (cons c) (utf8_decode r3)
            else None
        | _ => None
        end
      else None
  end.

(** ** Pillow images and the codec *)

(** What the program reads of a [PIL.Image.Image]: its [size], its [format]
    attribute (the format of the file it was opened from, [None] for an image
    made by the library itself) and its pixel data. *)
Record Image : Type := mkImage {
  size : Z * Z;
  format : option string;
  im : bytes
}.

(** What a save handler has written when it returns, or when it raises. *)
Inductive save_result : Type :=
| Saved (out : bytes)
| SaveFailed (partial : bytes).

(** The decoders, the resampler and the encoders of Pillow.
    [decode d] is [Image.open] followed by the loading of the pixel data on a
    stream that holds [d] from its current position on: the image, and how
    far the stream position has advanced when loading ends; [None] when
    Pillow raises.  Pillow postpones the loading until the pixels are first
    needed ([resize], [save]); both uses in this program come before the
    first write to the same stream, so the model decodes at once. *)
Record ImageCodec : Type := mkCodec {
  decode : bytes -> option (Image * nat);
  resample : Image -> Z * Z -> bytes;
  encode : Image -> string -> save_result
}.

(** Calls into Pillow, in the order they are made. *)
Inductive call : Type :=
| Call_open (d : bytes)
| Call_resize (sz : Z * Z)
| Call_save (fmt : string).

(** ** [zipfile.ZipFile] *)

Inductive compress : Type := ZIP_STORED | ZIP_DEFLATED | ZIP_BZIP2 | ZIP_LZMA.

Record ZipInfo : Type := mkZipInfo {
  filename : string;
  content : bytes;          (* the uncompressed payload of the entry *)
  compress_type : compress
}.

Record ZipFile : Type := mkZipFile {
  compression : compress;            (* the archive's default method *)
  filelist : list ZipInfo;           (* finished entries, in writing order *)
  writing : option (string * bytes)  (* the entry opened by [zf.open(_, "w")] *)
}.

(** [zf.read(name)]: [NameToInfo] maps a name to the last entry written
    under it. *)
Fixpoint zip_read (l : list ZipInfo) (nm : string) : option bytes :=
  match l with
  | [] => None
  | e :: l' =>
      match zip_read l' nm with
      | Some d => Some d
      | None => if String.eqb (filename e) nm then Some (content e) else None
      end
  end.

(** ** The pack and the world around it *)

Record StickerPack : Type := mkStickerPack {
  name : str;
  author : str;
  stickers : list Image;
  tray_image_buf : BytesIO
}.

(** The objects a method call can touch: the pack [self], the archive being
    written on the sink [fp], and the record of calls made into Pillow. *)
Record World : Type := mkWorld {
  self : StickerPack;
  fp : ZipFile;
  pillow : list call
}.

(** ** Computations that mutate the world and may raise *)

Definition M (A : Type) : Type := World -> (exn + A) * World.

Definition ret {A : Type} (a : A) : M A := fun w => (inr a, w).

Definition bind {A B : Type} (c : M A) (k : A -> M B) : M B :=
  fun w =>
    match c w with
    | (inr a, w') => k a w'
    | (inl e, w') => (inl e, w')
    end.

Definition raise {A : Type} (e : exn) : M A := fun w => (inl e, w).

(** [try: c finally: h] *)
Definition finally {A : Type} (c : M A) (h : M unit) : M A :=
  fun w =>
    match c w with
    | (r, w') =>
        match h w' with
        | (inr _, w'') => (r, w'')
        | (inl e, w'') => (inl e, w'')
        end
    end.

Definition gets {A : Type} (f : World -> A) : M A := fun w => (inr (f w), w).

Definition modify (f : World -> World) : M unit := fun w => (inr tt, f w).

Declare Scope monad_scope.
Delimit Scope monad_scope with monad.
Notation "x <- c ;; k" := (bind c (fun x => k))
  (at level 61, c at next level, right associativity) : monad_scope.
Notation "c ;; k" := (bind c (fun _ => k))
  (at level 61, right associativity) : monad_scope.
Open Scope monad_scope.

Definition set_self (f : StickerPack -> StickerPack) : M unit :=
  modify (fun w => mkWorld (f (self w)) (fp w) (pillow w)).

Definition set_fp (f : ZipFile -> ZipFile) : M unit :=
  modify (fun w => mkWorld (self w) (f (fp w)) (pillow w)).

Definition log (c : call) : M unit :=
  modify (fun w => mkWorld (self w) (fp w) (pillow w ++ [c])).

(** [for i, x in enumerate(l, start): body] *)
Fixpoint for_enumerate {A : Type} (l : list A) (start : nat)
    (body : nat -> A -> M unit) : M unit :=
  match l with
  | [] => ret tt
  | x :: l' => body start x ;; for_enumerate l' (S start) body
  end.

Definition size_eqb (a b : Z * Z) : bool :=
  (fst a =? fst b) && (snd a =? snd b).

(** [fmt in ["PNG", "WEBP"]] for the value of a [format] attribute. *)
Definition format_in_png_webp (fmt : option string) : bool :=
  match fmt with
  | Some s => (String.eqb s "PNG" || String.eqb s "WEBP")%bool
  | None => false
  end.

Section Methods.

Variable codec : ImageCodec.

(** *** Pillow, as the program calls it *)

(** [Image.open(f)] on a [BytesIO]: decodes what the stream holds from its
    position on and leaves the position where the decoder stopped reading.
    The stream is an object; the caller stores the moved stream back where
    the object lives. *)
Definition Image_open (f : BytesIO) : M (Image * BytesIO) :=
  log (Call_open (skipn (tell f) (getvalue f))) ;;
  match decode codec (skipn (tell f) (getvalue f)) with
  | Some (img, n) => ret (img, seek f (tell f + n))
  | None => raise ImagingError
  end.

(** [img.resize(sz)]: a new image of the requested size.  Only an image
    read from a file carries that file's format; Pillow documents
    [Image.format] as set to [None] for an image created by the library
    itself, a method run on an existing image included. *)
Definition resize (img : Image) (sz : Z * Z) : M Image :=
  log (Call_resize sz) ;;
  ret (mkImage sz None (resample codec img sz)).

(** [img.save(f, fmt)]: the handler's output goes to [f.write]; when the
    handler raises, what it had written stays written. *)
Definition save (img : Image) (f_write : bytes -> M unit) (fmt : string)
  : M unit :=
  log (Call_save fmt) ;;
  match encode codec img fmt with
  | Saved out => f_write out
  | SaveFailed partial => f_write partial ;; raise ImagingError
  end.

(** *** [zipfile], as the program calls it *)

(** [with zipfile.ZipFile(fp, "w", compression=c) as zf: body]: a new, empty
    archive on the sink; leaving the block closes it, which adds no entry. *)
Definition with_ZipFile (c : compress) (body : M unit) : M unit :=
  set_fp (fun _ => mkZipFile c [] None) ;;
  finally body (ret tt).

(** [zf.writestr(name, data)] with [data] a [bytes]. *)
Definition writestr_bytes (nm : string) (data : bytes) : M unit :=
  set_fp (fun zf =>
    mkZipFile (compression zf)
              (filelist zf ++ [mkZipInfo nm data (compression zf)])
              (writing zf)).

(** [zf.writestr(name, data)] with [data] a [str]: encoded as UTF-8 first. *)
Definition writestr (nm : string) (data : str) : M unit :=
  match utf8_encode data with
  | Some b => writestr_bytes nm b
  | None => raise UnicodeEncodeError
  end.

(** [f.write(d)] on the entry opened for writing. *)
Definition entry_write (d : bytes) : M unit :=
  set_fp (fun zf =>
    mkZipFile (compression zf) (filelist zf)
              (match writing zf with
               | Some (nm, b) => Some (nm, b ++ d)
               | None => None
               end)).

(** [f.close()] on the entry opened for writing: the entry joins the
    archive, compressed with the archive's method. *)
Definition entry_close : M unit :=
  set_fp (fun zf =>
    match writing zf with
    | Some (nm, b) =>
        mkZipFile (compression zf)
                  (filelist zf ++ [mkZipInfo nm b (compression zf)])
                  None
    | None => zf
    end).

(** [with zf.open(name, "w") as f: body] *)
Definition with_zf_open (nm : string) (body : M unit) : M unit :=
  set_fp (fun zf => mkZipFile (compression zf) (filelist zf) (Some (nm, []))) ;;
  finally body entry_close.

(** *** [StickerPack.__init__] *)

Definition set_tray_image_buf (b : BytesIO) : M unit :=
  set_self (fun s => mkStickerPack (name s) (author s) (stickers s) b).

(** [self.tray_image_buf.write(d)] *)
Definition tray_write (d : bytes) : M unit :=
  set_self (fun s =>
    mkStickerPack (name s) (author s) (stickers s)
                  (write (tray_image_buf s) d)).

Definition __init__ (name0 author0 : str) (tray_image : bytes) : M unit :=
  if negb (truthy name0 && truthy author0)
  then raise (StickerPackError "blank names are not allowed")
  else
    set_self (fun s =>
      mkStickerPack name0 (author s) (stickers s) (tray_image_buf s)) ;;
    set_self (fun s =>
      mkStickerPack (name s) author0 (stickers s) (tray_image_buf s)) ;;
    set_self (fun s =>
      mkStickerPack (name s) (author s) [] (tray_image_buf s)) ;;
    set_tray_image_buf (BytesIO_new tray_image) ;;
    buf <- gets (fun w => tray_image_buf (self w)) ;;
    r <- Image_open buf ;;
    set_tray_image_buf (snd r) ;;
    tray <- (if negb (size_eqb (size (fst r)) TRAY_MAX_PIXELS)
             then resize (fst r) TRAY_MAX_PIXELS
             else ret (fst r)) ;;
    save tray tray_write "PNG".

(** *** [StickerPack.add_sticker] *)

Definition add_sticker (image_data : bytes) : M unit :=
  n <- gets (fun w => length (stickers (self w))) ;;
  if negb (n <=? snd STICKERS_PER_PACK)%nat
  then raise (StickerPackError "too many stickers")
  else
    let img_buf := BytesIO_new image_data in
    r <- Image_open img_buf ;;
    img <- (if negb (size_eqb (size (fst r)) STICKER_MAX_PIXELS)
            then resize (fst r) STICKER_MAX_PIXELS
            else ret (fst r)) ;;
    set_self (fun s =>
      mkStickerPack (name s) (author s) (stickers s ++ [img])
                    (tray_image_buf s)).

(** *** [StickerPack.export] *)

(** The format a sticker is saved in (the [if]/[else] at the head of the
    loop body).  In the [else] branch [sticker.format] is one of the two
    strings, so the last case below is never taken. *)
Definition sticker_format_of (sticker : Image) : string :=
  if negb (format_in_png_webp (format sticker)) then "PNG"%string
  else match format sticker with
       | Some s => s
       | None => "PNG"%string
       end.

(** The body of the loop over the stickers. *)
Definition export_sticker (count : nat) (sticker : Image) : M unit :=
  let sticker_format := sticker_format_of sticker in
  with_zf_open (str_of_nat count ++ "." ++ lower sticker_format)%string
    (save sticker entry_write sticker_format).

Definition export : M unit :=
  with_ZipFile ZIP_DEFLATED
    (a <- gets (fun w => author (self w)) ;;
     writestr "author.txt" a ;;
     n <- gets (fun w => name (self w)) ;;
     writestr "title.txt" n ;;
     buf <- gets (fun w => tray_image_buf (self w)) ;;
     writestr_bytes "0.png" (getvalue buf) ;;
     l <- gets (fun w => stickers (self w)) ;;
     for_enumerate l 1 export_sticker).

End Methods.

(** [for d in ds: pack.add_sticker(d)], a caller adding several stickers. *)
Fixpoint add_all (codec : ImageCodec) (ds : list bytes) : M unit :=
  match ds with
  | [] => ret tt
  | d :: ds' => add_sticker codec d ;; add_all codec ds'
  end.

(** ** A small codec to run the methods on

    A file is one tag byte (137 for PNG, 82 for WEBP, 255 for JPEG), the
    width and the height on two bytes each, and the pixel data.  The decoder
    reads the file to its end; resizing keeps the pixel data as it is; the
    encoder writes PNG and WEBP only. *)
Module Tiny.

Definition header (tag : Z) (sz : Z * Z) : bytes :=
  [tag; fst sz / 256; fst sz mod 256; snd sz / 256; snd sz mod 256].

Definition format_of_tag (tag : Z) : option string :=
  if tag =? 137 then Some "PNG"%string
  else if tag =? 82 then Some "WEBP"%string
  else if tag =? 255 then Some "JPEG"%string
  else None.

Definition decode (d : bytes) : option (Image * nat) :=
  match d with
  | tag :: wh :: wl :: hh :: hl :: px =>
      match format_of_tag tag with
      | Some f => Some (mkImage (wh * 256 + wl, hh * 256 + hl) (Some f) px,
                        length d)
      | None => None
      end
  | _ => None
  end.

Definition resample (img : Image) (sz : Z * Z) : bytes := im img.

Definition encode (img : Image) (fmt : string) : save_result :=
  if String.eqb fmt "PNG" then Saved (header 137 (size img) ++ im img)
  else if String.eqb fmt "WEBP" then Saved (header 82 (size img) ++ im img)
  else SaveFailed [].

Definition codec : ImageCodec := mkCodec decode resample encode.



(** An object on which [__init__] has not run yet, an unused sink, and no
    call made so far. *)
Definition blank : World :=
  mkWorld (mkStickerPack [] [] [] (BytesIO_new []))
          (mkZipFile ZIP_STORED [] None) [].

Definition Cats : str := [67; 97; 116; 115].
Definition Alice : str := [65; 108; 105; 99; 101].

Definition png_200 : bytes := header 137 (200, 200) ++ [1; 2; 3].
Definition png_512 : bytes := header 137 (512, 512) ++ [4; 5].
Definition webp_300 : bytes := header 82 (300, 300) ++ [6; 7; 8].
Definition webp_512 : bytes := header 82 (512, 512) ++ [9].
Definition png_64 : bytes := header 137 (64, 64) ++ [10].
Definition jpeg_96 : bytes := header 255 (96, 96) ++ [11; 12].

Definition Bob : str := [66; 111; 98].

(** A pack holding 31 stickers, the most [add_sticker] lets in. *)
Definition full : World :=
  snd (add_all codec (repeat png_512 31) blank).

(** The spec's scenario: a pack "Cats" by "Alice" with a 200x200 PNG tray
    image, then a 512x512 PNG, a 300x300 WEBP and a 64x64 PNG sticker. *)
Definition scenario : M unit :=
  __init__ codec Cats Alice png_200 ;;
  add_all codec [png_512; webp_300; png_64].

End Tiny.

(** ** What the methods compute, in closed form *)

(** Pillow can open and load the image held in [d]. *)
Definition decodable (codec : ImageCodec) (d : bytes) : Prop :=
  decode codec d <> None.

(** The image [add_sticker] stores for a decoded image. *)
Definition normalized (codec : ImageCodec) (sz : Z * Z) (img : Image) : Image :=
  if size_eqb (size img) sz then img
  else mkImage sz None (resample codec img sz).

(** The calls [Image.open] and the conditional [resize] leave in the log. *)
Definition open_calls (d : bytes) (sz : Z * Z) (img : Image) : list call :=
  if size_eqb (size img) sz then [Call_open d]
  else [Call_open d; Call_resize sz].

(** The name of the archive entry of the sticker at position [count]. *)
Definition entry_name (count : nat) (sticker : Image) : string :=
  (str_of_nat count ++ "." ++ lower (sticker_format_of sticker))%string.

(** The world once the entry of one sticker, holding [data], is closed. *)
Definition after_entry (count : nat) (sticker : Image) (data : bytes)
    (w : World) : World :=
  mkWorld (self w)
          (mkZipFile (compression (fp w))
             (filelist (fp w)
                ++ [mkZipInfo (entry_name count sticker) data
                              (compression (fp w))])
             None)
          (pillow w ++ [Call_save (sticker_format_of sticker)]).

(** The archive when the loop over the stickers starts. *)
Definition archive_head (a n : bytes) (p : StickerPack) : ZipFile :=
  mkZipFile ZIP_DEFLATED
    [mkZipInfo "author.txt" a ZIP_DEFLATED;
     mkZipInfo "title.txt" n ZIP_DEFLATED;
     mkZipInfo "0.png" (getvalue (tray_image_buf p)) ZIP_DEFLATED]
    None.

(** The string starts with a decimal digit. *)
Definition digit_headed (s : string) : bool :=
  match s with
  | EmptyString => false
  | String c _ =>
      (Nat.leb 48 (nat_of_ascii c) && Nat.leb (nat_of_ascii c) 57)%bool
  end.

(** ** The life of a pack *)

(** One world follows from another by calls of [add_sticker] and [export],
    with any arguments and whether they return or raise. *)
Inductive steps (codec : ImageCodec) (w0 : World) : World -> Prop :=
| steps_none : steps codec w0 w0
| steps_add (w : World) (d : bytes) :
    steps codec w0 w -> steps codec w0 (snd (add_sticker codec d w))
| steps_export (w : World) :
    steps codec w0 w -> steps codec w0 (snd (export codec w)).

(** Every character of the string is a decimal digit. *)
Fixpoint all_digits (s : string) : bool :=
  match s with
  | EmptyString => true
  | String c s' =>
      (Nat.leb 48 (nat_of_ascii c) && Nat.leb (nat_of_ascii c) 57
       && all_digits s')%bool
  end.

(** A code point [str.encode] has a UTF-8 form for. *)
Definition encodable_cp (c : Z) : Prop :=
  0 <= c < 1114112 /\ ~ (55296 <= c <= 57343).

(** * Properties *)

(** ** UTF-8 *)

Ltac bool_true :=
  symmetry; repeat (apply andb_true_iff; split);
  first [apply Z.leb_le | apply Z.ltb_lt | apply negb_true_iff]; try lia.

Lemma utf8_decode_1 (b0 : Z) (r : bytes) :
  0 <= b0 < 128 ->
  utf8_decode (b0 :: r) = option_map (cons b0) (utf8_decode r).
Proof.
  intros H. cbn [utf8_decode].
  replace ((0 <=? b0) && (b0 <? 128)) with true by bool_true.
  reflexivity.
Qed.

Lemma utf8_decode_2 (b0 b1 : Z) (r : bytes) :
  194 <= b0 < 224 -> 128 <= b1 < 192 ->
  utf8_decode (b0 :: b1 :: r)
  = option_map (cons ((b0 - 192) * 64 + (b1 - 128))) (utf8_decode r).
Proof.
  intros H0 H1. cbn [utf8_decode].
  replace ((0 <=? b0) && (b0 <? 128)) with false
    by (symmetry; apply andb_false_iff; right; apply Z.ltb_ge; lia).
  replace ((194 <=? b0) && (b0 <? 224)) with true by bool_true.
  replace (cont b1) with true by (unfold cont; bool_true).
  reflexivity.
Qed.

Lemma utf8_decode_3 (b0 b1 b2 : Z) (r : bytes) :
  224 <= b0 < 240 -> 128 <= b1 < 192 -> 128 <= b2 < 192 ->
  2048 <= (b0 - 224) * 4096 + (b1 - 128) * 64 + (b2 - 128) ->
  surrogate ((b0 - 224) * 4096 + (b1 - 128) * 64 + (b2 - 128)) = false ->
  utf8_decode (b0 :: b1 :: b2 :: r)
  = option_map (cons ((b0 - 224) * 4096 + (b1 - 128) * 64 + (b2 - 128)))
               (utf8_decode r).
Proof.
  intros H0 H1 H2 Hc Hs. cbn [utf8_decode].
  replace ((0 <=? b0) && (b0 <? 128)) with false
    by (symmetry; apply andb_false_iff; right; apply Z.ltb_ge; lia).
  replace ((194 <=? b0) && (b0 <? 224)) with false
    by (symmetry; apply andb_false_iff; right; apply Z.ltb_ge; lia).
  replace ((224 <=? b0) && (b0 <? 240)) with true by bool_true.
  cbv zeta. rewrite Hs.
  replace (cont b1) with true by (unfold cont; bool_true).
  replace (cont b2) with true by (unfold cont; bool_true).
  apply Z.leb_le in Hc. rewrite Hc. reflexivity.
Qed.

Lemma utf8_decode_4 (b0 b1 b2 b3 : Z) (r : bytes) :
  240 <= b0 < 245 -> 128 <= b1 < 192 -> 128 <= b2 < 192 -> 128 <= b3 < 192 ->
  65536 <= (b0 - 240) * 262144 + (b1 - 128) * 4096
           + (b2 - 128) * 64 + (b3 - 128) < 1114112 ->
  utf8_decode (b0 :: b1 :: b2 :: b3 :: r)
  = option_map (cons ((b0 - 240) * 262144 + (b1 - 128) * 4096
                      + (b2 - 128) * 64 + (b3 - 128)))
               (utf8_decode r).
Proof.
  intros H0 H1 H2 H3 [Hc Hd]. cbn [utf8_decode].
  replace ((0 <=? b0) && (b0 <? 128)) with false
    by (symmetry; apply andb_false_iff; right; apply Z.ltb_ge; lia).
  replace ((194 <=? b0) && (b0 <? 224)) with false
    by (symmetry; apply andb_false_iff; right; apply Z.ltb_ge; lia).
  replace ((224 <=? b0) && (b0 <? 240)) with false
    by (symmetry; apply andb_false_iff; right; apply Z.ltb_ge; lia).
  replace ((240 <=? b0) && (b0 <? 245)) with true by bool_true.
  cbv zeta.
  replace (cont b1) with true by (unfold cont; bool_true).
  replace (cont b2) with true by (unfold cont; bool_true).
  replace (cont b3) with true by (unfold cont; bool_true).
  apply Z.leb_le in Hc. apply Z.ltb_lt in Hd. rewrite Hc, Hd. reflexivity.
Qed.

Lemma Some_inj (A : Type) (a b : A) : Some a = Some b -> a = b.
Proof. congruence. Qed.

(** Decoding undoes the encoding of one code point, whatever follows. *)
Lemma utf8_decode_encode_cp (c : Z) (x r : bytes) :
  utf8_encode_cp c = Some x ->
  utf8_decode (x ++ r) = option_map (cons c) (utf8_decode r).
Proof.
  unfold utf8_encode_cp.
  destruct (c <? 0) eqn:H0; [discriminate|].
  apply Z.ltb_ge in H0.
  destruct (c <? 128) eqn:H1.
  { apply Z.ltb_lt in H1. intros E; apply Some_inj in E; subst x.
    apply utf8_decode_1. lia. }
  apply Z.ltb_ge in H1.
  destruct (c <? 2048) eqn:H2.
  { apply Z.ltb_lt in H2. intros E; apply Some_inj in E; subst x.
    change ([192 + c / 64; 128 + c mod 64] ++ r)
      with ((192 + c / 64) :: (128 + c mod 64) :: r).
    rewrite utf8_decode_2 by (Z.div_mod_to_equations; lia).
    f_equal. f_equal. Z.div_mod_to_equations; lia. }
  apply Z.ltb_ge in H2.
  destruct (c <? 65536) eqn:H3.
  { apply Z.ltb_lt in H3.
    destruct (surrogate c) eqn:Hs; [discriminate|].
    intros E; apply Some_inj in E; subst x.
    change ([224 + c / 4096; 128 + (c / 64) mod 64; 128 + c mod 64] ++ r)
      with ((224 + c / 4096) :: (128 + (c / 64) mod 64)
              :: (128 + c mod 64) :: r).
    assert (E : (224 + c / 4096 - 224) * 4096
                + (128 + (c / 64) mod 64 - 128) * 64
                + (128 + c mod 64 - 128) = c)
      by (Z.div_mod_to_equations; lia).
    rewrite utf8_decode_3; rewrite ?E; try assumption;
      try (Z.div_mod_to_equations; lia).
    reflexivity. }
  apply Z.ltb_ge in H3.
  destruct (c <? 1114112) eqn:H4; [|discriminate].
  apply Z.ltb_lt in H4. intros E; apply Some_inj in E; subst x.
  change ([240 + c / 262144; 128 + (c / 4096) mod 64;
           128 + (c / 64) mod 64; 128 + c mod 64] ++ r)
    with ((240 + c / 262144) :: (128 + (c / 4096) mod 64)
            :: (128 + (c / 64) mod 64) :: (128 + c mod 64) :: r).
  assert (E : (240 + c / 262144 - 240) * 262144
              + (128 + (c / 4096) mod 64 - 128) * 4096
              + (128 + (c / 64) mod 64 - 128) * 64
              + (128 + c mod 64 - 128) = c)
    by (Z.div_mod_to_equations; lia).
  rewrite utf8_decode_4; rewrite ?E; try (Z.div_mod_to_equations; lia).
  reflexivity.
Qed.

(** [b.decode("utf-8")] returns the string [s.encode("utf-8")] came from. *)
Lemma utf8_roundtrip (s : str) (b : bytes) :
  utf8_encode s = Some b -> utf8_decode b = Some s.
Proof.
  revert b. induction s as [|c s IH]; intros b; cbn [utf8_encode].
  - intros [= <-]. reflexivity.
  - destruct (utf8_encode_cp c) as [x|] eqn:Hc; [|discriminate].
    destruct (utf8_encode s) as [y|]; [|discriminate].
    intros [= <-]. rewrite (utf8_decode_encode_cp c x _ Hc), (IH y eq_refl).
    reflexivity.
Qed.

(** ** Running the methods *)

Lemma size_eqb_eq (a b : Z * Z) : size_eqb a b = true <-> a = b.
Proof.
  destruct a as [a1 a2], b as [b1 b2]. unfold size_eqb. cbn [fst snd].
  rewrite andb_true_iff, !Z.eqb_eq. split.
  - intros [-> ->]. reflexivity.
  - intros [= -> ->]. split; reflexivity.
Qed.

Lemma normalized_size (codec : ImageCodec) (sz : Z * Z) (img : Image) :
  size (normalized codec sz img) = sz.
Proof.
  unfold normalized. destruct (size_eqb (size img) sz) eqn:E.
  - apply size_eqb_eq. exact E.
  - reflexivity.
Qed.

Create HintDb run discriminated.

#[local] Hint Unfold bind ret raise finally gets modify set_self set_fp log
  set_tray_image_buf tray_write Image_open resize save
  with_ZipFile writestr_bytes writestr entry_write entry_close with_zf_open
  BytesIO_new seek : run.

(** Unfolds the monad and reads the fields of the worlds built, nothing
    else. *)
Ltac run_monad :=
  repeat (progress (autounfold with run;
    cbn [self fp pillow name author stickers tray_image_buf tell getvalue
         compression filelist writing skipn Nat.add fst snd negb app])).

Section Runs.

Variable codec : ImageCodec.

(** [add_sticker] in closed form. *)
Lemma add_sticker_run (d : bytes) (w : World) :
  add_sticker codec d w =
  if (length (stickers (self w)) <=? 30)%nat then
    match decode codec d with
    | Some (img, _) =>
        (inr tt,
         mkWorld (mkStickerPack (name (self w)) (author (self w))
                    (stickers (self w)
                       ++ [normalized codec STICKER_MAX_PIXELS img])
                    (tray_image_buf (self w)))
                 (fp w)
                 (pillow w ++ open_calls d STICKER_MAX_PIXELS img))
    | None =>
        (inl ImagingError,
         mkWorld (self w) (fp w) (pillow w ++ [Call_open d]))
    end
  else (inl (StickerPackError "too many stickers"), w).
Proof.
  unfold add_sticker, bind, gets. cbn [snd STICKERS_PER_PACK].
  destruct (length (stickers (self w)) <=? 30)%nat; cbn [negb]; [|reflexivity].
  unfold Image_open, bind, log, modify, BytesIO_new.
  cbn [tell getvalue skipn self fp pillow].
  destruct (decode codec d) as [[img n]|]; [|reflexivity].
  unfold ret, normalized, open_calls. cbn [fst snd].
  destruct (size_eqb (size img) STICKER_MAX_PIXELS); cbn [negb].
  - reflexivity.
  - unfold resize, bind, log, modify, set_self, ret.
    cbn [self fp pillow]. rewrite <- app_assoc. reflexivity.
Qed.

(** [__init__] in closed form: the stream is left at the offset [n] where
    the decoder stopped, and the PNG is written from there. *)
Lemma init_run (name0 author0 : str) (tray : bytes) (w : World) :
  __init__ codec name0 author0 tray w =
  if truthy name0 && truthy author0 then
    match decode codec tray with
    | Some (img, n) =>
        match encode codec (normalized codec TRAY_MAX_PIXELS img) "PNG" with
        | Saved out =>
            (inr tt,
             mkWorld (mkStickerPack name0 author0 []
                        (write (mkBytesIO tray n) out))
                     (fp w)
                     (pillow w ++ open_calls tray TRAY_MAX_PIXELS img
                        ++ [Call_save "PNG"]))
        | SaveFailed partial =>
            (inl ImagingError,
             mkWorld (mkStickerPack name0 author0 []
                        (write (mkBytesIO tray n) partial))
                     (fp w)
                     (pillow w ++ open_calls tray TRAY_MAX_PIXELS img
                        ++ [Call_save "PNG"]))
        end
    | None =>
        (inl ImagingError,
         mkWorld (mkStickerPack name0 author0 [] (BytesIO_new tray))
                 (fp w) (pillow w ++ [Call_open tray]))
    end
  else (inl (StickerPackError "blank names are not allowed"), w).
Proof.
  unfold __init__.
  destruct (truthy name0 && truthy author0); cbn [negb]; [|reflexivity].
  run_monad.
  destruct (decode codec tray) as [[img n]|]; [|reflexivity].
  unfold normalized, open_calls. run_monad.
  destruct (size_eqb (size img) TRAY_MAX_PIXELS); run_monad.
  - destruct (encode codec img "PNG"); rewrite <- app_assoc; reflexivity.
  - destruct (encode codec _ "PNG"); rewrite <- !app_assoc; reflexivity.
Qed.

Lemma export_sticker_run (i : nat) (s : Image) (w : World) :
  export_sticker codec i s w =
  match encode codec s (sticker_format_of s) with
  | Saved out => (inr tt, after_entry i s out w)
  | SaveFailed partial => (inl ImagingError, after_entry i s partial w)
  end.
Proof.
  unfold export_sticker, after_entry, entry_name. run_monad.
  destruct (encode codec s (sticker_format_of s)); reflexivity.
Qed.

(** [export] in closed form, up to the loop over the stickers. *)
Lemma export_run (w : World) :
  export codec w =
  match utf8_encode (author (self w)) with
  | None =>
      (inl UnicodeEncodeError,
       mkWorld (self w) (mkZipFile ZIP_DEFLATED [] None) (pillow w))
  | Some a =>
      match utf8_encode (name (self w)) with
      | None =>
          (inl UnicodeEncodeError,
           mkWorld (self w)
             (mkZipFile ZIP_DEFLATED
                [mkZipInfo "author.txt" a ZIP_DEFLATED] None)
             (pillow w))
      | Some n =>
          for_enumerate (stickers (self w)) 1 (export_sticker codec)
            (mkWorld (self w) (archive_head a n (self w)) (pillow w))
      end
  end.
Proof.
  unfold export, archive_head. run_monad.
  destruct (utf8_encode (author (self w))) as [a|]; run_monad; [|reflexivity].
  destruct (utf8_encode (name (self w))) as [n|]; run_monad; [|reflexivity].
  destruct (for_enumerate _ _ _ _) as [[e|[]] w']; reflexivity.
Qed.

(** *** The loop over the stickers *)

Lemma loop_cons (s : Image) (l : list Image) (i : nat) (w : World) :
  for_enumerate (s :: l) i (export_sticker codec) w =
  match encode codec s (sticker_format_of s) with
  | Saved out =>
      for_enumerate l (S i) (export_sticker codec) (after_entry i s out w)
  | SaveFailed partial => (inl ImagingError, after_entry i s partial w)
  end.
Proof.
  cbn [for_enumerate]. unfold bind. rewrite export_sticker_run.
  destruct (encode codec s (sticker_format_of s)); reflexivity.
Qed.

(** The loop never touches the pack, whether it ends or raises. *)
Lemma loop_self (l : list Image) (i : nat) (w : World) :
  self (snd (for_enumerate l i (export_sticker codec) w)) = self w.
Proof.
  revert i w. induction l as [|s l IH]; intros i w.
  - reflexivity.
  - rewrite loop_cons.
    destruct (encode codec s (sticker_format_of s)).
    + rewrite IH. reflexivity.
    + reflexivity.
Qed.

(** What the loop does to the archive depends on the archive alone. *)
Lemma loop_fp (l : list Image) (i : nat) (w1 w2 : World) :
  fp w1 = fp w2 ->
  fst (for_enumerate l i (export_sticker codec) w1)
  = fst (for_enumerate l i (export_sticker codec) w2)
  /\ fp (snd (for_enumerate l i (export_sticker codec) w1))
     = fp (snd (for_enumerate l i (export_sticker codec) w2)).
Proof.
  revert i w1 w2. induction l as [|s l IH]; intros i w1 w2 E.
  - split; [reflexivity | exact E].
  - rewrite !loop_cons.
    destruct (encode codec s (sticker_format_of s)).
    + apply IH. unfold after_entry. cbn [fp]. rewrite E. reflexivity.
    + unfold after_entry. cbn [fst snd fp]. rewrite E. split; reflexivity.
Qed.

(** When the loop ends, it has appended one entry per sticker, in the order
    of the list, numbered from [i] on. *)
Lemma loop_entries (l : list Image) (i : nat) (w w' : World) :
  for_enumerate l i (export_sticker codec) w = (inr tt, w') ->
  compression (fp w') = compression (fp w)
  /\ exists es,
       filelist (fp w') = filelist (fp w) ++ es
       /\ length es = length l
       /\ forall k s, nth_error l k = Some s ->
            exists out,
              encode codec s (sticker_format_of s) = Saved out
              /\ nth_error es k
                 = Some (mkZipInfo (entry_name (i + k) s) out
                                   (compression (fp w))).
Proof.
  revert i w w'. induction l as [|s l IH]; intros i w w'.
  - cbn [for_enumerate]. unfold ret. intros [= <-]. split; [reflexivity|].
    exists []. rewrite app_nil_r. repeat split.
    intros [|k] s0; discriminate.
  - rewrite loop_cons.
    destruct (encode codec s (sticker_format_of s)) as [out|] eqn:Hs;
      [|discriminate].
    intros H. apply IH in H. destruct H as (Hc & es & Hl & Hn & Hk).
    unfold after_entry in Hc, Hl, Hk.
    cbn [fp compression filelist] in Hc, Hl, Hk.
    split; [exact Hc|].
    exists (mkZipInfo (entry_name i s) out (compression (fp w)) :: es).
    split; [rewrite Hl, <- app_assoc; reflexivity|].
    split; [cbn [length]; rewrite Hn; reflexivity|].
    intros [|k] s0 Hs0.
    + injection Hs0 as <-. exists out. rewrite Nat.add_0_r.
      split; [exact Hs | reflexivity].
    + cbn [nth_error] in Hs0 |- *. rewrite Nat.add_succ_r.
      apply (Hk k s0 Hs0).
Qed.


End Runs.

(** ** Adding stickers *)

Section AddSticker.

Variable codec : ImageCodec.

(** The capacity check alone decides whether [add_sticker] raises
    [StickerPackError]. *)
Lemma add_sticker_too_many (d : bytes) (w : World) :
  fst (add_sticker codec d w) = inl (StickerPackError "too many stickers")
  <-> (30 < length (stickers (self w)))%nat.
Proof.
  rewrite add_sticker_run.
  destruct (length (stickers (self w)) <=? 30)%nat eqn:E.
  - apply Nat.leb_le in E. split; [|lia].
    destruct (decode codec d) as [[img n]|]; discriminate.
  - apply Nat.leb_gt in E. split; [intros _; exact E | reflexivity].
Qed.

(** Below the check's bound a decodable image is appended. *)
Lemma add_sticker_appends (d : bytes) (w : World) :
  decodable codec d ->
  (length (stickers (self w)) <= 30)%nat ->
  exists img,
    fst (add_sticker codec d w) = inr tt
    /\ stickers (self (snd (add_sticker codec d w)))
       = stickers (self w) ++ [img].
Proof.
  intros Hd Hn. rewrite add_sticker_run.
  apply Nat.leb_le in Hn. rewrite Hn.
  unfold decodable in Hd.
  destruct (decode codec d) as [[img n]|]; [|contradiction].
  exists (normalized codec STICKER_MAX_PIXELS img). split; reflexivity.
Qed.

(** A caller that keeps adding decodable images gets them all in while the
    pack holds at most 31 in the end. *)
Lemma add_all_fits (ds : list bytes) (w : World) :
  Forall (decodable codec) ds ->
  (length (stickers (self w)) + length ds <= 31)%nat ->
  fst (add_all codec ds w) = inr tt
  /\ length (stickers (self (snd (add_all codec ds w))))
     = (length (stickers (self w)) + length ds)%nat.
Proof.
  intros H. revert w. induction H as [|d ds Hd _ IH]; intros w Hn.
  - cbn [add_all length]. unfold ret. cbn [fst snd]. split; [reflexivity|lia].
  - cbn [length] in Hn. cbn [add_all]. unfold bind.
    destruct (add_sticker_appends d w Hd) as (img & Hr & Hs); [lia|].
    destruct (add_sticker codec d w) as [r w1]. cbn [fst snd] in Hr, Hs.
    subst r.
    assert (Hl : length (stickers (self w1))
                 = S (length (stickers (self w))))
      by (rewrite Hs, length_app; cbn [length]; lia).
    destruct (IH w1) as [IH1 IH2]; [lia|].
    split; [exact IH1|]. rewrite IH2. cbn [length]. lia.
Qed.

(** Past that, the same caller is stopped by [StickerPackError]. *)
Lemma add_all_overflows (ds : list bytes) (w : World) :
  Forall (decodable codec) ds ->
  (length (stickers (self w)) <= 31)%nat ->
  (31 < length (stickers (self w)) + length ds)%nat ->
  fst (add_all codec ds w) = inl (StickerPackError "too many stickers").
Proof.
  intros H. revert w. induction H as [|d ds Hd _ IH]; intros w Hn Hm.
  - cbn [length] in Hm. lia.
  - cbn [length] in Hm. cbn [add_all]. unfold bind.
    destruct (Nat.eq_dec (length (stickers (self w))) 31) as [E|E].
    + assert (Hf : fst (add_sticker codec d w)
                   = inl (StickerPackError "too many stickers"))
        by (apply add_sticker_too_many; lia).
      destruct (add_sticker codec d w) as [r w1]. cbn [fst] in Hf.
      subst r. reflexivity.
    + destruct (add_sticker_appends d w Hd) as (img & Hr & Hs); [lia|].
      destruct (add_sticker codec d w) as [r w1]. cbn [fst snd] in Hr, Hs.
      subst r.
      assert (Hl : length (stickers (self w1))
                   = S (length (stickers (self w))))
        by (rewrite Hs, length_app; cbn [length]; lia).
      apply IH; lia.
Qed.

End AddSticker.

(** C3. [add_sticker] raises the "too many stickers" [StickerPackError]
    exactly when the pack already holds more than 30 stickers
    ([STICKERS_PER_PACK[1]]); with at most 30 a decodable image is appended.
    Hence, from an empty pack, a caller adding decodable images one after
    the other gets up to 31 of them in (so any number up to the ceiling of
    30), and is stopped by that error as soon as it tries more. *)
Theorem add_sticker_capacity (codec : ImageCodec) (w : World) (d : bytes)
    (ds : list bytes) :
  decodable codec d ->
  Forall (decodable codec) ds ->
  (fst (add_sticker codec d w) = inl (StickerPackError "too many stickers")
   <-> (snd STICKERS_PER_PACK < length (stickers (self w)))%nat)
  /\ ((length (stickers (self w)) <= snd STICKERS_PER_PACK)%nat ->
      exists img,
        fst (add_sticker codec d w) = inr tt
        /\ stickers (self (snd (add_sticker codec d w)))
           = stickers (self w) ++ [img])
  /\ (stickers (self w) = [] ->
      ((length ds <= 31)%nat ->
       fst (add_all codec ds w) = inr tt
       /\ length (stickers (self (snd (add_all codec ds w)))) = length ds)
      /\ ((31 < length ds)%nat ->
          fst (add_all codec ds w)
          = inl (StickerPackError "too many stickers"))).
Proof.
  intros Hd Hds. cbn [snd STICKERS_PER_PACK].
  split; [apply add_sticker_too_many|].
  split; [apply add_sticker_appends; exact Hd|].
  intros E. split; intros Hn.
  - destruct (add_all_fits codec ds w Hds) as [H1 H2];
      [rewrite E; cbn [length]; lia|].
    split; [exact H1|]. rewrite H2, E. reflexivity.
  - apply add_all_overflows; [exact Hds| |]; rewrite E; cbn [length]; lia.
Qed.

(** Thirty-two stickers offered to the small codec's empty pack: the adds
    succeed up to the bound and the run as a whole is refused. *)
Lemma add_sticker_capacity_witness :
  fst (add_all Tiny.codec (repeat Tiny.png_512 30) Tiny.blank) = inr tt
  /\ fst (add_all Tiny.codec (repeat Tiny.png_512 32) Tiny.blank)
     = inl (StickerPackError "too many stickers").
Proof.
  assert (Hd : decodable Tiny.codec Tiny.png_512) by (vm_compute; discriminate).
  split.
  - apply (add_sticker_capacity Tiny.codec Tiny.blank Tiny.png_512
             (repeat Tiny.png_512 30) Hd).
    + apply Forall_forall. intros x Hx. apply repeat_spec in Hx. subst x.
      exact Hd.
    + reflexivity.
    + rewrite repeat_length. lia.
  - apply (add_sticker_capacity Tiny.codec Tiny.blank Tiny.png_512
             (repeat Tiny.png_512 32) Hd).
    + apply Forall_forall. intros x Hx. apply repeat_spec in Hx. subst x.
      exact Hd.
    + reflexivity.
    + rewrite repeat_length. lia.
Defined.

(** C7. After a successful [add_sticker] the sequence ends with one new
    sticker, and that sticker's size is exactly 512x512
    ([STICKER_MAX_PIXELS]), whatever the size of the image that was passed. *)
Theorem add_sticker_size (codec : ImageCodec) (d : bytes) (w w' : World) :
  add_sticker codec d w = (inr tt, w') ->
  exists img,
    stickers (self w') = stickers (self w) ++ [img]
    /\ size img = STICKER_MAX_PIXELS.
Proof.
  rewrite add_sticker_run.
  destruct (length (stickers (self w)) <=? 30)%nat; [|discriminate].
  destruct (decode codec d) as [[img n]|]; [|discriminate].
  intros [= <-]. exists (normalized codec STICKER_MAX_PIXELS img).
  split; [reflexivity | apply normalized_size].
Qed.

(** A 300x300 WEBP and a 512x512 WEBP, each added to an empty pack. *)
Lemma add_sticker_size_witness :
  (exists img,
     stickers (self (snd (add_sticker Tiny.codec Tiny.webp_300 Tiny.blank)))
     = [] ++ [img]
     /\ size img = (512, 512))
  /\ (exists img,
        stickers (self (snd (add_sticker Tiny.codec Tiny.webp_512 Tiny.blank)))
        = [] ++ [img]
        /\ size img = (512, 512)).
Proof.
  split.
  - apply (add_sticker_size Tiny.codec Tiny.webp_300 Tiny.blank).
    vm_compute. reflexivity.
  - apply (add_sticker_size Tiny.codec Tiny.webp_512 Tiny.blank).
    vm_compute. reflexivity.
Defined.

(** C10. [add_sticker] changes the sticker sequence only: when it returns,
    one image has been appended and name, author, tray buffer, the earlier
    stickers and the sink are as before; when it raises the "too many
    stickers" error the whole world is as before, no call into Pillow
    included; when Pillow raises, the pack is as before. *)
Theorem add_sticker_frame (codec : ImageCodec) (d : bytes) (w : World) :
  match add_sticker codec d w with
  | (inr _, w') =>
      (exists img,
         self w' = mkStickerPack (name (self w)) (author (self w))
                     (stickers (self w) ++ [img]) (tray_image_buf (self w)))
      /\ fp w' = fp w
  | (inl (StickerPackError _), w') => w' = w
  | (inl _, w') => self w' = self w /\ fp w' = fp w
  end.
Proof.
  rewrite add_sticker_run.
  destruct (length (stickers (self w)) <=? 30)%nat; [|reflexivity].
  destruct (decode codec d) as [[img n]|].
  - split; [|reflexivity].
    exists (normalized codec STICKER_MAX_PIXELS img). reflexivity.
  - split; reflexivity.
Qed.

(** ** Construction *)

Lemma truthy_false (s : str) : truthy s = false <-> s = [].
Proof. destruct s; split; intros H; try reflexivity; discriminate. Qed.

Lemma blank_names (name0 author0 : str) :
  truthy name0 && truthy author0 = false <-> name0 = [] \/ author0 = [].
Proof. rewrite andb_false_iff, !truthy_false. reflexivity. Qed.

(** The check on the names comes first and leaves no trace. *)
Lemma init_blank (codec : ImageCodec) (name0 author0 : str) (tray : bytes)
    (w : World) :
  name0 = [] \/ author0 = [] ->
  __init__ codec name0 author0 tray w
  = (inl (StickerPackError "blank names are not allowed"), w).
Proof.
  intros H. apply blank_names in H. rewrite init_run, H. reflexivity.
Qed.

(** C4. [__init__] raises [StickerPackError] if and only if the name or the
    author is the empty string (a string of blanks is accepted); and when
    either is empty it raises the "blank names" error with the world left as
    it was: nothing was assigned and Pillow was not called, whatever the
    other argument and the tray bytes are. *)
Theorem init_validation (codec : ImageCodec) (name0 author0 : str)
    (tray : bytes) (w : World) :
  ((exists msg,
      fst (__init__ codec name0 author0 tray w) = inl (StickerPackError msg))
   <-> name0 = [] \/ author0 = [])
  /\ (name0 = [] \/ author0 = [] ->
      __init__ codec name0 author0 tray w
      = (inl (StickerPackError "blank names are not allowed"), w))
  /\ (forall msg,
        fst (__init__ codec [32] [32; 9] tray w)
        <> inl (StickerPackError msg)).
Proof.
  assert (Hrun : forall n a,
            truthy n && truthy a = true ->
            forall msg,
              fst (__init__ codec n a tray w) <> inl (StickerPackError msg)).
  { intros n a Ht msg. rewrite init_run, Ht.
    destruct (decode codec tray) as [[img k]|]; [|discriminate].
    destruct (encode codec _ "PNG"); discriminate. }
  split; [|split].
  - split.
    + intros [msg H]. apply blank_names.
      destruct (truthy name0 && truthy author0) eqn:Ht; [|reflexivity].
      exfalso. exact (Hrun name0 author0 Ht msg H).
    + intros H. rewrite (init_blank codec name0 author0 tray w H).
      eexists. reflexivity.
  - apply init_blank.
  - apply Hrun. reflexivity.
Qed.

(** The spec's scenario: an empty name, author "Bob", on tray bytes that
    are no image at all. *)
Lemma init_validation_witness :
  __init__ Tiny.codec [] Tiny.Bob [0; 1; 2] Tiny.blank
  = (inl (StickerPackError "blank names are not allowed"), Tiny.blank)
  /\ pillow (snd (__init__ Tiny.codec [] Tiny.Bob [0; 1; 2] Tiny.blank)) = [].
Proof.
  destruct (init_validation Tiny.codec [] Tiny.Bob [0; 1; 2] Tiny.blank)
    as (_ & H & _).
  rewrite (H (or_introl eq_refl)). split; reflexivity.
Defined.

(** C9. The error of [__init__] on a blank name and the error of
    [add_sticker] on a full pack are values of the one exception class
    [StickerPackError]; they differ in their messages only. *)
Theorem errors_share_class (codec : ImageCodec) (name0 author0 : str)
    (tray d : bytes) (w1 w2 : World) :
  name0 = [] \/ author0 = [] ->
  (snd STICKERS_PER_PACK < length (stickers (self w2)))%nat ->
  exists m1 m2,
    fst (__init__ codec name0 author0 tray w1) = inl (StickerPackError m1)
    /\ fst (add_sticker codec d w2) = inl (StickerPackError m2)
    /\ m1 = "blank names are not allowed"%string
    /\ m2 = "too many stickers"%string
    /\ m1 <> m2.
Proof.
  intros Hb Hn.
  exists "blank names are not allowed"%string, "too many stickers"%string.
  split.
  { rewrite (init_blank codec name0 author0 tray w1 Hb). reflexivity. }
  split; [apply add_sticker_too_many; exact Hn|].
  repeat split. discriminate.
Qed.

(** The spec's second scenario (an empty name, author "Bob") next to one
    more sticker offered to a pack that holds 31. *)
Lemma errors_share_class_witness :
  exists m1 m2,
    fst (__init__ Tiny.codec [] Tiny.Bob Tiny.png_200 Tiny.blank)
    = inl (StickerPackError m1)
    /\ fst (add_sticker Tiny.codec Tiny.png_512 Tiny.full)
       = inl (StickerPackError m2)
    /\ m1 = "blank names are not allowed"%string
    /\ m2 = "too many stickers"%string
    /\ m1 <> m2.
Proof.
  apply (errors_share_class Tiny.codec [] Tiny.Bob Tiny.png_200 Tiny.png_512
           Tiny.blank Tiny.full).
  - left. reflexivity.
  - vm_compute. lia.
Defined.

(** ** Exporting *)

Lemma str_of_nat_digit_headed (n : nat) (rest : string) :
  digit_headed (str_of_nat n ++ rest)%string = true.
Proof.
  unfold str_of_nat.
  destruct (Nat.to_uint n) as [|u|u|u|u|u|u|u|u|u|u] eqn:E;
    try reflexivity.
  exfalso.
  assert (H : Nat.of_uint (Nat.to_uint n) = n) by apply Unsigned.of_to.
  rewrite E in H. cbn in H. subst n. discriminate E.
Qed.

Lemma digit_headed_neq (nm other : string) :
  digit_headed nm = true -> digit_headed other = false ->
  String.eqb nm other = false.
Proof.
  intros H1 H2. destruct (String.eqb nm other) eqn:E; [|reflexivity].
  apply String.eqb_eq in E. subst other. congruence.
Qed.

(** Every sticker is saved as PNG or as WEBP. *)
Lemma sticker_format_cases (s : Image) :
  sticker_format_of s = "PNG"%string \/ sticker_format_of s = "WEBP"%string.
Proof.
  unfold sticker_format_of, format_in_png_webp.
  destruct (format s) as [f|]; cbn [negb]; [|left; reflexivity].
  destruct (String.eqb f "PNG") eqn:E1.
  - apply String.eqb_eq in E1. left. exact E1.
  - destruct (String.eqb f "WEBP") eqn:E2.
    + apply String.eqb_eq in E2. right. exact E2.
    + left. reflexivity.
Qed.

(** Entries that are not named [nm] do not change what [zf.read(nm)]
    finds. *)
Lemma zip_read_app (l es : list ZipInfo) (nm : string) :
  Forall (fun e => String.eqb (filename e) nm = false) es ->
  zip_read (l ++ es) nm = zip_read l nm.
Proof.
  intros H. induction l as [|e l IH].
  - cbn [app]. induction H as [|e es He _ IH]; [reflexivity|].
    cbn [zip_read]. rewrite IH, He. reflexivity.
  - cbn [app zip_read]. rewrite IH. reflexivity.
Qed.

Lemma Forall_nth_error (A : Type) (P : A -> Prop) (l : list A) :
  (forall k x, nth_error l k = Some x -> P x) -> Forall P l.
Proof.
  intros H. apply Forall_forall. intros x Hx.
  apply In_nth_error in Hx. destruct Hx as [k Hk]. exact (H k x Hk).
Qed.

Section Exporting.

Variable codec : ImageCodec.

(** The archive [export] leaves when it returns: the two texts, the tray
    buffer, then one entry per sticker. *)
Lemma export_archive (w w' : World) :
  export codec w = (inr tt, w') ->
  exists a n es,
    utf8_encode (author (self w)) = Some a
    /\ utf8_encode (name (self w)) = Some n
    /\ fp w'
       = mkZipFile ZIP_DEFLATED
           (filelist (archive_head a n (self w)) ++ es)
           (writing (fp w'))
    /\ length es = length (stickers (self w))
    /\ forall k s, nth_error (stickers (self w)) k = Some s ->
         exists out,
           encode codec s (sticker_format_of s) = Saved out
           /\ nth_error es k
              = Some (mkZipInfo (entry_name (S k) s) out ZIP_DEFLATED).
Proof.
  rewrite export_run.
  destruct (utf8_encode (author (self w))) as [a|]; [|discriminate].
  destruct (utf8_encode (name (self w))) as [n|]; [|discriminate].
  intros H. apply loop_entries in H. cbn [fp self compression] in H.
  destruct H as (Hc & es & Hl & Hn & Hk).
  exists a, n, es. repeat split; try assumption.
  destruct (fp w') as [c fl wr]. cbn [compression filelist writing] in *.
  subst c fl. reflexivity.
Qed.


(** [export] leaves the pack as it found it, whether it returns or raises. *)
Lemma export_self (w : World) : self (snd (export codec w)) = self w.
Proof.
  rewrite export_run.
  destruct (utf8_encode (author (self w))); [|reflexivity].
  destruct (utf8_encode (name (self w))); [|reflexivity].
  rewrite loop_self. reflexivity.
Qed.

(** Outcome and archive are determined by the pack. *)
Lemma export_deterministic (w1 w2 : World) :
  self w1 = self w2 ->
  fst (export codec w1) = fst (export codec w2)
  /\ fp (snd (export codec w1)) = fp (snd (export codec w2)).
Proof.
  intros E. rewrite !export_run, E.
  destruct (utf8_encode (author (self w2))); [|split; reflexivity].
  destruct (utf8_encode (name (self w2))); [|split; reflexivity].
  apply loop_fp. reflexivity.
Qed.

End Exporting.

(** C5. When [export] returns, the archive holds exactly ['author.txt'],
    ['title.txt'], ['0.png'] and then one entry per sticker, in that order:
    the sticker at position [k] of the sequence (counted from 0) is entry
    [3 + k], named [k+1] followed by ['.png'] or ['.webp'] and holding that
    sticker as its codec saves it; ['0.png'] holds the bytes of the pack's
    tray buffer; every entry is deflated. *)
Theorem export_layout (codec : ImageCodec) (w w' : World) :
  export codec w = (inr tt, w') ->
  exists a n,
    utf8_encode (author (self w)) = Some a
    /\ utf8_encode (name (self w)) = Some n
    /\ length (filelist (fp w')) = (3 + length (stickers (self w)))%nat
    /\ nth_error (filelist (fp w')) 0
       = Some (mkZipInfo "author.txt" a ZIP_DEFLATED)
    /\ nth_error (filelist (fp w')) 1
       = Some (mkZipInfo "title.txt" n ZIP_DEFLATED)
    /\ nth_error (filelist (fp w')) 2
       = Some (mkZipInfo "0.png" (getvalue (tray_image_buf (self w)))
                         ZIP_DEFLATED)
    /\ (forall k s, nth_error (stickers (self w)) k = Some s ->
          exists ext out,
            (ext = "png"%string \/ ext = "webp"%string)
            /\ ext = lower (sticker_format_of s)
            /\ encode codec s (sticker_format_of s) = Saved out
            /\ nth_error (filelist (fp w')) (3 + k)
               = Some (mkZipInfo (str_of_nat (S k) ++ "." ++ ext) out
                                 ZIP_DEFLATED))
    /\ Forall (fun e => compress_type e = ZIP_DEFLATED) (filelist (fp w')).
Proof.
  intros H. apply export_archive in H.
  destruct H as (a & n & es & Ha & Hn & Hfp & Hlen & Hk).
  exists a, n. rewrite Hfp. cbn [filelist archive_head app nth_error length].
  split; [exact Ha|]. split; [exact Hn|].
  split; [rewrite Hlen; reflexivity|].
  do 3 (split; [reflexivity|]).
  split.
  - intros k s Hs. destruct (Hk k s Hs) as (out & He & Hout).
    exists (lower (sticker_format_of s)), out.
    split; [destruct (sticker_format_cases s) as [-> | ->];
            [left | right]; reflexivity|].
    split; [reflexivity|]. split; [exact He|].
    cbn [Nat.add nth_error]. exact Hout.
  - repeat (apply Forall_cons; [reflexivity|]).
    apply Forall_nth_error. intros k e He.
    assert (Hlt : (k < length (stickers (self w)))%nat)
      by (rewrite <- Hlen; apply nth_error_Some; congruence).
    destruct (nth_error (stickers (self w)) k) as [s|] eqn:Hs;
      [|apply nth_error_None in Hs; lia].
    destruct (Hk k s Hs) as (out & _ & Hout).
    rewrite Hout in He. injection He as <-. reflexivity.
Qed.

(** The archive of the spec's scenario, as the small codec exports it. *)
Lemma export_layout_witness :
  exists a n,
    utf8_encode Tiny.Alice = Some a /\ utf8_encode Tiny.Cats = Some n
    /\ map filename
           (filelist (fp (snd (export Tiny.codec
                                 (snd (Tiny.scenario Tiny.blank))))))
       = ["author.txt"; "title.txt"; "0.png"; "1.png"; "2.png"; "3.png"]%string
    /\ nth_error (filelist (fp (snd (export Tiny.codec
                                       (snd (Tiny.scenario Tiny.blank)))))) 0
       = Some (mkZipInfo "author.txt" a ZIP_DEFLATED).
Proof.
  destruct (export_layout Tiny.codec (snd (Tiny.scenario Tiny.blank))
              (snd (export Tiny.codec (snd (Tiny.scenario Tiny.blank)))))
    as (a & n & Ha & Hn & _ & H0 & _).
  - vm_compute. reflexivity.
  - exists a, n. split; [exact Ha|]. split; [exact Hn|].
    split; [vm_compute; reflexivity | exact H0].
Defined.

(** ** Metadata round trip *)

Lemma add_sticker_meta (codec : ImageCodec) (d : bytes) (w : World) :
  name (self (snd (add_sticker codec d w))) = name (self w)
  /\ author (self (snd (add_sticker codec d w))) = author (self w)
  /\ tray_image_buf (self (snd (add_sticker codec d w)))
     = tray_image_buf (self w).
Proof.
  rewrite add_sticker_run.
  destruct (length (stickers (self w)) <=? 30)%nat;
    [|repeat split; reflexivity].
  destruct (decode codec d) as [[img n]|]; repeat split; reflexivity.
Qed.

Lemma add_all_meta (codec : ImageCodec) (ds : list bytes) (w : World) :
  name (self (snd (add_all codec ds w))) = name (self w)
  /\ author (self (snd (add_all codec ds w))) = author (self w)
  /\ tray_image_buf (self (snd (add_all codec ds w)))
     = tray_image_buf (self w).
Proof.
  revert w. induction ds as [|d ds IH]; intros w.
  - repeat split; reflexivity.
  - cbn [add_all]. unfold bind.
    destruct (add_sticker_meta codec d w) as (H1 & H2 & H3).
    destruct (add_sticker codec d w) as [[e|[]] w1]; cbn [snd] in *.
    + repeat split; assumption.
    + destruct (IH w1) as (I1 & I2 & I3).
      rewrite I1, I2, I3. repeat split; assumption.
Qed.

(** What [__init__] assigns when it returns. *)
Lemma init_assigns (codec : ImageCodec) (name0 author0 : str) (tray : bytes)
    (w w' : World) :
  __init__ codec name0 author0 tray w = (inr tt, w') ->
  name (self w') = name0 /\ author (self w') = author0
  /\ stickers (self w') = [].
Proof.
  rewrite init_run.
  destruct (truthy name0 && truthy author0); [|discriminate].
  destruct (decode codec tray) as [[img n]|]; [|discriminate].
  destruct (encode codec _ "PNG"); [|discriminate].
  intros [= <-]. repeat split; reflexivity.
Qed.

(** C6. Take a pack that [__init__] built from [name0] and [author0], add
    stickers to it (whether or not every add goes through), and export it.
    When the export returns, reading ['author.txt'] and ['title.txt'] back
    from the archive and decoding them as UTF-8 gives [author0] and [name0]. *)
Theorem metadata_roundtrip (codec : ImageCodec) (name0 author0 : str)
    (tray : bytes) (ds : list bytes) (w0 w1 w3 : World) :
  __init__ codec name0 author0 tray w0 = (inr tt, w1) ->
  export codec (snd (add_all codec ds w1)) = (inr tt, w3) ->
  (exists b, zip_read (filelist (fp w3)) "author.txt" = Some b
             /\ utf8_decode b = Some author0)
  /\ (exists b, zip_read (filelist (fp w3)) "title.txt" = Some b
                /\ utf8_decode b = Some name0).
Proof.
  intros Hi He.
  apply init_assigns in Hi. destruct Hi as (Hn & Ha & _).
  destruct (add_all_meta codec ds w1) as (Mn & Ma & _).
  apply export_archive in He.
  destruct He as (a & n & es & Ea & En & Hfp & Hlen & Hk).
  rewrite Ma, Ha in Ea. rewrite Mn, Hn in En.
  assert (Hes : forall other, digit_headed other = false ->
            Forall (fun e => String.eqb (filename e) other = false) es).
  { intros other Ho. apply Forall_nth_error. intros k e Hke.
    assert (Hlt : (k < length (stickers (self (snd (add_all codec ds w1)))))
                  %nat)
      by (rewrite <- Hlen; apply nth_error_Some; congruence).
    destruct (nth_error (stickers (self (snd (add_all codec ds w1)))) k)
      as [s|] eqn:Hs; [|apply nth_error_None in Hs; lia].
    destruct (Hk k s Hs) as (out & _ & Hout).
    rewrite Hout in Hke. injection Hke as <-. cbn [filename].
    apply digit_headed_neq; [|exact Ho].
    unfold entry_name. apply str_of_nat_digit_headed. }
  rewrite Hfp. cbn [filelist]. split.
  - exists a. rewrite zip_read_app by (apply Hes; reflexivity).
    split; [reflexivity | apply utf8_roundtrip; exact Ea].
  - exists n. rewrite zip_read_app by (apply Hes; reflexivity).
    split; [reflexivity | apply utf8_roundtrip; exact En].
Qed.

(** The spec's scenario, read back. *)
Lemma metadata_roundtrip_witness :
  (exists b,
     zip_read (filelist (fp (snd (export Tiny.codec
                                    (snd (Tiny.scenario Tiny.blank))))))
              "author.txt" = Some b
     /\ utf8_decode b = Some Tiny.Alice)
  /\ (exists b,
        zip_read (filelist (fp (snd (export Tiny.codec
                                       (snd (Tiny.scenario Tiny.blank))))))
                 "title.txt" = Some b
        /\ utf8_decode b = Some Tiny.Cats).
Proof.
  apply (metadata_roundtrip Tiny.codec Tiny.Cats Tiny.Alice Tiny.png_200
           [Tiny.png_512; Tiny.webp_300; Tiny.png_64] Tiny.blank
           (snd (__init__ Tiny.codec Tiny.Cats Tiny.Alice Tiny.png_200
                   Tiny.blank))).
  - vm_compute. reflexivity.
  - vm_compute. reflexivity.
Defined.

(** C8. [export] leaves the pack (name, author, tray buffer, stickers) as it
    was, whether it returns or raises; and a world holding the same pack,
    whatever its sink held and whatever was called before, gets the same
    outcome and the same archive: same entries, same order, same content.
    In particular so does a second export of the pack to another sink. *)
Theorem export_no_mutation (codec : ImageCodec) (w : World) :
  self (snd (export codec w)) = self w
  /\ (forall w2, self w2 = self w ->
        fst (export codec w2) = fst (export codec w)
        /\ fp (snd (export codec w2)) = fp (snd (export codec w)))
  /\ (forall sink2,
        fp (snd (export codec
                   (mkWorld (self (snd (export codec w))) sink2
                            (pillow (snd (export codec w))))))
        = fp (snd (export codec w))).
Proof.
  split; [apply export_self|]. split.
  - intros w2 E. apply export_deterministic. exact E.
  - intros sink2. apply export_deterministic. cbn [self]. apply export_self.
Qed.

(** The spec's scenario exported, then exported again to another sink, one
    that already holds an entry. *)
Lemma export_no_mutation_witness :
  self (snd (export Tiny.codec (snd (Tiny.scenario Tiny.blank))))
  = self (snd (Tiny.scenario Tiny.blank))
  /\ filelist
       (fp (snd (export Tiny.codec
                   (mkWorld
                      (self (snd (export Tiny.codec
                                    (snd (Tiny.scenario Tiny.blank)))))
                      (mkZipFile ZIP_STORED
                         [mkZipInfo "old.txt" [1] ZIP_STORED] None)
                      (pillow (snd (export Tiny.codec
                                      (snd (Tiny.scenario Tiny.blank)))))))))
     = filelist (fp (snd (export Tiny.codec (snd (Tiny.scenario Tiny.blank))))).
Proof.
  destruct (export_no_mutation Tiny.codec (snd (Tiny.scenario Tiny.blank)))
    as (H1 & _ & H3).
  split; [exact H1|]. rewrite H3. reflexivity.
Defined.

(** ** What a resized sticker is exported as *)

Lemma add_sticker_prefix (codec : ImageCodec) (d : bytes) (w : World) :
  exists more,
    stickers (self (snd (add_sticker codec d w))) = stickers (self w) ++ more.
Proof.
  rewrite add_sticker_run.
  destruct (length (stickers (self w)) <=? 30)%nat;
    [|exists []; rewrite app_nil_r; reflexivity].
  destruct (decode codec d) as [[img n]|].
  - eexists. reflexivity.
  - exists []. rewrite app_nil_r. reflexivity.
Qed.

(** Adding never removes or reorders what the pack holds. *)
Lemma add_all_prefix (codec : ImageCodec) (ds : list bytes) (w : World) :
  exists more,
    stickers (self (snd (add_all codec ds w))) = stickers (self w) ++ more.
Proof.
  revert w. induction ds as [|d ds IH]; intros w.
  - exists []. rewrite app_nil_r. reflexivity.
  - cbn [add_all]. unfold bind.
    destruct (add_sticker_prefix codec d w) as [m1 H1].
    destruct (add_sticker codec d w) as [[e|[]] w1]; cbn [snd] in *.
    + exists m1. exact H1.
    + destruct (IH w1) as [m2 H2]. exists (m1 ++ m2).
      rewrite H2, H1, app_assoc. reflexivity.
Qed.

(** A WEBP image that is 512x512 already is stored as opened and exported
    under [i.webp]. *)
Lemma unresized_webp_keeps_format (codec : ImageCodec) (img : Image)
    (i : nat) :
  format img = Some "WEBP"%string -> size img = STICKER_MAX_PIXELS ->
  normalized codec STICKER_MAX_PIXELS img = img
  /\ entry_name i img = (str_of_nat i ++ ".webp")%string.
Proof.
  intros Hf Hs. apply size_eqb_eq in Hs.
  unfold normalized, entry_name, sticker_format_of, format_in_png_webp.
  rewrite Hs, Hf. split; reflexivity.
Qed.

(** C1 (what the code does). A WEBP image whose size is not 512x512 is
    stored by [add_sticker] as the resized image, whose [format] is [None];
    [export] therefore saves it with the PNG encoder under the name
    [i.png], [i] being its position counted from 1, and not as [i.webp]. *)
Theorem resized_webp_exported_as_png (codec : ImageCodec) (d : bytes)
    (img : Image) (n : nat) (ds : list bytes) (w w1 w2 : World) :
  decode codec d = Some (img, n) ->
  format img = Some "WEBP"%string ->
  size img <> STICKER_MAX_PIXELS ->
  add_sticker codec d w = (inr tt, w1) ->
  export codec (snd (add_all codec ds w1)) = (inr tt, w2) ->
  exists out,
    encode codec
      (mkImage STICKER_MAX_PIXELS None (resample codec img STICKER_MAX_PIXELS))
      "PNG" = Saved out
    /\ nth_error (filelist (fp w2)) (3 + length (stickers (self w)))
       = Some (mkZipInfo
                 (str_of_nat (S (length (stickers (self w)))) ++ ".png")
                 out ZIP_DEFLATED).
Proof.
  intros Hd _ Hsz Ha He.
  rewrite add_sticker_run, Hd in Ha.
  destruct (length (stickers (self w)) <=? 30)%nat; [|discriminate].
  unfold normalized in Ha.
  destruct (size_eqb (size img) STICKER_MAX_PIXELS) eqn:E;
    [apply size_eqb_eq in E; contradiction|].
  injection Ha as <-.
  destruct (add_all_prefix codec ds
              (mkWorld
                 (mkStickerPack (name (self w)) (author (self w))
                    (stickers (self w)
                       ++ [mkImage STICKER_MAX_PIXELS None
                             (resample codec img STICKER_MAX_PIXELS)])
                    (tray_image_buf (self w)))
                 (fp w)
                 (pillow w ++ open_calls d STICKER_MAX_PIXELS img)))
    as [more Hm].
  cbn [self stickers] in Hm.
  apply export_archive in He.
  destruct He as (a & t & es & _ & _ & Hfp & _ & Hk).
  destruct (Hk (length (stickers (self w)))
               (mkImage STICKER_MAX_PIXELS None
                  (resample codec img STICKER_MAX_PIXELS)))
    as (out & Ho & Hn).
  { rewrite Hm, <- app_assoc, nth_error_app2 by lia.
    rewrite Nat.sub_diag. reflexivity. }
  exists out. split; [exact Ho|].
  rewrite Hfp. cbn [filelist archive_head app Nat.add nth_error]. exact Hn.
Qed.

(** The spec's scenario: the 300x300 WEBP image added second. *)
Lemma resized_webp_exported_as_png_witness :
  exists out,
    nth_error
      (filelist (fp (snd (export Tiny.codec (snd (Tiny.scenario Tiny.blank))))))
      4
    = Some (mkZipInfo "2.png" out ZIP_DEFLATED).
Proof.
  destruct (resized_webp_exported_as_png Tiny.codec Tiny.webp_300
              (mkImage (300, 300) (Some "WEBP"%string) [6; 7; 8]) 8
              [Tiny.png_64]
              (snd ((__init__ Tiny.codec Tiny.Cats Tiny.Alice Tiny.png_200 ;;
                     add_sticker Tiny.codec Tiny.png_512) Tiny.blank))
              (snd ((__init__ Tiny.codec Tiny.Cats Tiny.Alice Tiny.png_200 ;;
                     add_sticker Tiny.codec Tiny.png_512 ;;
                     add_sticker Tiny.codec Tiny.webp_300) Tiny.blank))
              (snd (export Tiny.codec (snd (Tiny.scenario Tiny.blank)))))
    as (out & _ & H).
  - reflexivity.
  - reflexivity.
  - discriminate.
  - vm_compute. reflexivity.
  - vm_compute. reflexivity.
  - exists out. exact H.
Defined.

(** ** What the tray buffer holds *)

Lemma write_length (f : BytesIO) (d : bytes) :
  (tell f + length d <= length (getvalue (write f d)))%nat.
Proof.
  unfold write. cbn [getvalue].
  rewrite !length_app, repeat_length, length_firstn. lia.
Qed.

(** C2 (what the code does). [__init__] saves the PNG into the very stream
    the tray image was read from, at the offset [n] where reading stopped:
    the buffer [export] later writes as ['0.png'] keeps the first [n] bytes
    of the input in front of the PNG (and whatever input lies beyond the
    PNG's end); once a single byte has been read it is longer than the PNG
    and so is not the PNG re-encoding. *)
Theorem tray_buffer_keeps_input (codec : ImageCodec) (name0 author0 : str)
    (tray : bytes) (img : Image) (n : nat) (w w' : World) :
  __init__ codec name0 author0 tray w = (inr tt, w') ->
  decode codec tray = Some (img, n) ->
  (0 < n <= length tray)%nat ->
  exists png,
    encode codec (normalized codec TRAY_MAX_PIXELS img) "PNG" = Saved png
    /\ getvalue (tray_image_buf (self w'))
       = firstn n tray ++ png ++ skipn (n + length png) tray
    /\ (length png < length (getvalue (tray_image_buf (self w'))))%nat
    /\ getvalue (tray_image_buf (self w')) <> png.
Proof.
  intros Hi Hd Hn. rewrite init_run, Hd in Hi.
  destruct (truthy name0 && truthy author0); [|discriminate].
  destruct (encode codec _ "PNG") as [png|]; [|discriminate].
  injection Hi as <-. exists png. cbn [self tray_image_buf].
  split; [reflexivity|].
  assert (Hlen : (length png
                  < length (getvalue (write (mkBytesIO tray n) png)))%nat).
  { pose proof (write_length (mkBytesIO tray n) png) as H.
    cbn [tell] in H. lia. }
  split; [|split; [exact Hlen|]].
  - unfold write. cbn [getvalue tell].
    replace (n - length tray)%nat with 0%nat by lia. reflexivity.
  - intros E. rewrite E in Hlen. lia.
Qed.

(** The spec's scenario: a 200x200 PNG tray image.  The buffer is the
    input followed by the 96x96 PNG, and read as an image it is the
    200x200 input. *)
Lemma tray_buffer_keeps_input_witness :
  (exists png,
     encode Tiny.codec
       (normalized Tiny.codec TRAY_MAX_PIXELS
          (mkImage (200, 200) (Some "PNG"%string) [1; 2; 3])) "PNG"
     = Saved png
     /\ getvalue (tray_image_buf
                    (self (snd (__init__ Tiny.codec Tiny.Cats Tiny.Alice
                                  Tiny.png_200 Tiny.blank))))
        = firstn 8 Tiny.png_200 ++ png
            ++ skipn (8 + length png) Tiny.png_200
     /\ (length png
         < length (getvalue
                     (tray_image_buf
                        (self (snd (__init__ Tiny.codec Tiny.Cats Tiny.Alice
                                      Tiny.png_200 Tiny.blank))))))%nat
     /\ getvalue (tray_image_buf
                    (self (snd (__init__ Tiny.codec Tiny.Cats Tiny.Alice
                                  Tiny.png_200 Tiny.blank))))
        <> png)
  /\ option_map (fun r => size (fst r))
       (decode Tiny.codec
          (getvalue (tray_image_buf
                       (self (snd (__init__ Tiny.codec Tiny.Cats Tiny.Alice
                                     Tiny.png_200 Tiny.blank))))))
     = Some (200, 200).
Proof.
  split.
  - apply (tray_buffer_keeps_input Tiny.codec Tiny.Cats Tiny.Alice
             Tiny.png_200 (mkImage (200, 200) (Some "PNG"%string) [1; 2; 3])
             8 Tiny.blank).
    + vm_compute. reflexivity.
    + reflexivity.
    + vm_compute. lia.
  - vm_compute. reflexivity.
Defined.

(** A 96x96 JPEG tray image: what [export] writes as ['0.png'] starts with
    the JPEG and is read back as a JPEG. *)
Example jpeg_tray_is_not_png :
  option_map (fun r => format (fst r))
    (decode Tiny.codec
       (getvalue (tray_image_buf
                    (self (snd (__init__ Tiny.codec Tiny.Cats Tiny.Alice
                                  Tiny.jpeg_96 Tiny.blank))))))
  = Some (Some "JPEG"%string).
Proof. vm_compute. reflexivity. Qed.

(** * Further properties of the three methods *)

(** ** When construction returns *)

(** X1. [__init__] returns exactly when name and author are non-empty, the
    tray bytes can be decoded and the image, brought to 96x96, can be saved
    as PNG; with non-empty names every other outcome is an error of Pillow,
    never a [StickerPackError]. *)
Theorem init_returns_iff (codec : ImageCodec) (name0 author0 : str)
    (tray : bytes) (w : World) :
  (fst (__init__ codec name0 author0 tray w) = inr tt
   <-> name0 <> [] /\ author0 <> []
       /\ exists img n png,
            decode codec tray = Some (img, n)
            /\ encode codec (normalized codec TRAY_MAX_PIXELS img) "PNG"
               = Saved png)
  /\ (fst (__init__ codec name0 author0 tray w) = inl ImagingError
      <-> name0 <> [] /\ author0 <> []
          /\ (decode codec tray = None
              \/ exists img n partial,
                   decode codec tray = Some (img, n)
                   /\ encode codec (normalized codec TRAY_MAX_PIXELS img) "PNG"
                      = SaveFailed partial)).
Proof.
  rewrite init_run.
  destruct name0 as [|c0 name0].
  { cbn [truthy andb fst]. split; split; try discriminate;
      intros (H & _); contradiction. }
  destruct author0 as [|c1 author0].
  { cbn [truthy andb fst]. split; split; try discriminate;
      intros (_ & H & _); contradiction. }
  cbn [truthy andb].
  destruct (decode codec tray) as [[img n]|].
  - destruct (encode codec _ "PNG") as [png|partial] eqn:He; cbn [fst].
    + split; split; try discriminate.
      * intros _. repeat split; try discriminate.
        exists img, n, png. split; [reflexivity | exact He].
      * intros _. reflexivity.
      * intros (_ & _ & [H | (i & k & p & Hd & Hp)]); [discriminate|].
        injection Hd as <- <-. congruence.
    + split; split; try discriminate.
      * intros (_ & _ & i & k & p & Hd & Hp).
        injection Hd as <- <-. congruence.
      * intros _. repeat split; try discriminate.
        right. exists img, n, partial. split; [reflexivity | exact He].
      * intros _. reflexivity.
  - cbn [fst]. split; split; try discriminate.
    + intros (_ & _ & i & k & p & Hd & _). discriminate.
    + intros _. repeat split; try discriminate. left. reflexivity.
    + intros _. reflexivity.
Qed.

(** ** What holds of a pack all along *)

Lemma add_sticker_keeps_bounds (codec : ImageCodec) (d : bytes) (w : World) :
  (length (stickers (self w)) <= 31)%nat ->
  Forall (fun s => size s = STICKER_MAX_PIXELS) (stickers (self w)) ->
  (length (stickers (self (snd (add_sticker codec d w)))) <= 31)%nat
  /\ Forall (fun s => size s = STICKER_MAX_PIXELS)
            (stickers (self (snd (add_sticker codec d w)))).
Proof.
  intros Hn Hs. rewrite add_sticker_run.
  destruct (length (stickers (self w)) <=? 30)%nat eqn:E;
    [|split; assumption].
  apply Nat.leb_le in E.
  destruct (decode codec d) as [[img n]|]; cbn [snd self stickers];
    [|split; assumption].
  split.
  - rewrite length_app. cbn [length]. lia.
  - apply Forall_app. split; [exact Hs|].
    apply Forall_cons; [apply normalized_size | apply Forall_nil].
Qed.

(** X2. From a successful construction on, whatever calls of [add_sticker]
    and [export] are made and however they end, the pack never holds more
    than 31 stickers (one more than [STICKERS_PER_PACK[1]]) and every
    sticker it holds is 512x512. *)
Theorem pack_bounds (codec : ImageCodec) (name0 author0 : str) (tray : bytes)
    (w0 w1 w : World) :
  __init__ codec name0 author0 tray w0 = (inr tt, w1) ->
  steps codec w1 w ->
  (length (stickers (self w)) <= 31)%nat
  /\ Forall (fun s => size s = STICKER_MAX_PIXELS) (stickers (self w)).
Proof.
  intros Hi Hs. apply init_assigns in Hi. destruct Hi as (_ & _ & He).
  induction Hs as [|w d _ IH|w _ IH].
  - rewrite He. split; [cbn [length]; lia | apply Forall_nil].
  - destruct IH as [H1 H2]. apply add_sticker_keeps_bounds; assumption.
  - rewrite export_self. exact IH.
Qed.

(** A construction, two adds and an export. *)
Lemma pack_bounds_witness :
  (length (stickers (self (snd (export Tiny.codec
     (snd (add_sticker Tiny.codec Tiny.webp_300
        (snd (add_sticker Tiny.codec Tiny.png_64
           (snd (__init__ Tiny.codec Tiny.Cats Tiny.Alice Tiny.png_200
                   Tiny.blank))))))))))
   <= 31)%nat
  /\ Forall (fun s => size s = STICKER_MAX_PIXELS)
       (stickers (self (snd (export Tiny.codec
          (snd (add_sticker Tiny.codec Tiny.webp_300
             (snd (add_sticker Tiny.codec Tiny.png_64
                (snd (__init__ Tiny.codec Tiny.Cats Tiny.Alice Tiny.png_200
                        Tiny.blank)))))))))).
Proof.
  apply (pack_bounds Tiny.codec Tiny.Cats Tiny.Alice Tiny.png_200 Tiny.blank
           (snd (__init__ Tiny.codec Tiny.Cats Tiny.Alice Tiny.png_200
                   Tiny.blank))).
  - vm_compute. reflexivity.
  - apply steps_export. apply steps_add. apply steps_add. apply steps_none.
Defined.

(** X3. Calls of [add_sticker] and [export] never change the pack's name,
    author or tray buffer, and never remove, replace or reorder a sticker:
    the sequence only grows at its end. *)
Theorem pack_append_only (codec : ImageCodec) (w0 w : World) :
  steps codec w0 w ->
  name (self w) = name (self w0)
  /\ author (self w) = author (self w0)
  /\ tray_image_buf (self w) = tray_image_buf (self w0)
  /\ exists more, stickers (self w) = stickers (self w0) ++ more.
Proof.
  intros Hs. induction Hs as [|w d _ IH|w _ IH].
  - repeat split. exists []. rewrite app_nil_r. reflexivity.
  - destruct IH as (Hn & Ha & Ht & more & Hm).
    destruct (add_sticker_meta codec d w) as (Mn & Ma & Mt).
    destruct (add_sticker_prefix codec d w) as [m1 H1].
    rewrite Mn, Ma, Mt. repeat split; try assumption.
    exists (more ++ m1). rewrite H1, Hm, app_assoc. reflexivity.
  - rewrite export_self. exact IH.
Qed.

(** An export between two adds. *)
Lemma pack_append_only_witness :
  name (self (snd (add_sticker Tiny.codec Tiny.webp_300
                     (snd (export Tiny.codec
                             (snd (Tiny.scenario Tiny.blank)))))))
  = Tiny.Cats
  /\ exists more,
       stickers (self (snd (add_sticker Tiny.codec Tiny.webp_300
                             (snd (export Tiny.codec
                                     (snd (Tiny.scenario Tiny.blank)))))))
       = stickers (self (snd (Tiny.scenario Tiny.blank))) ++ more.
Proof.
  destruct (pack_append_only Tiny.codec (snd (Tiny.scenario Tiny.blank))
              (snd (add_sticker Tiny.codec Tiny.webp_300
                      (snd (export Tiny.codec
                              (snd (Tiny.scenario Tiny.blank)))))))
    as (Hn & _ & _ & Hm).
  - apply steps_add. apply steps_export. apply steps_none.
  - split; [rewrite Hn; reflexivity | exact Hm].
Defined.

(** ** Which stickers are exported as WEBP *)

Lemma sticker_format_webp (s : Image) :
  sticker_format_of s = "WEBP"%string <-> format s = Some "WEBP"%string.
Proof.
  unfold sticker_format_of, format_in_png_webp.
  destruct (format s) as [f|]; cbn [negb].
  - destruct (String.eqb f "PNG") eqn:E1; cbn [orb negb].
    + apply String.eqb_eq in E1. subst f. split; discriminate.
    + destruct (String.eqb f "WEBP") eqn:E2; cbn [negb].
      * apply String.eqb_eq in E2. subst f. split; reflexivity.
      * apply String.eqb_neq in E2. split; [discriminate|].
        intros [= H]. contradiction.
  - split; discriminate.
Qed.

Lemma lower_format_webp (s : Image) :
  lower (sticker_format_of s) = "webp"%string
  <-> format s = Some "WEBP"%string.
Proof.
  rewrite <- sticker_format_webp.
  destruct (sticker_format_cases s) as [E | E]; rewrite E;
    split; try reflexivity; discriminate.
Qed.

(** X4. The sticker [add_sticker] stores for a decoded image is exported
    under the extension [webp] exactly when the image was decoded as WEBP
    and was 512x512 already; in every other case (any other format, or any
    image that had to be resized) it is exported under [png]. *)
Theorem webp_only_when_unresized (codec : ImageCodec) (d : bytes)
    (img : Image) (n : nat) (w w' : World) :
  decode codec d = Some (img, n) ->
  add_sticker codec d w = (inr tt, w') ->
  exists s,
    stickers (self w') = stickers (self w) ++ [s]
    /\ (lower (sticker_format_of s) = "webp"%string
        <-> format img = Some "WEBP"%string /\ size img = STICKER_MAX_PIXELS)
    /\ (lower (sticker_format_of s) = "png"%string
        <-> ~ (format img = Some "WEBP"%string
               /\ size img = STICKER_MAX_PIXELS)).
Proof.
  intros Hd Ha. rewrite add_sticker_run, Hd in Ha.
  destruct (length (stickers (self w)) <=? 30)%nat; [|discriminate].
  injection Ha as <-.
  exists (normalized codec STICKER_MAX_PIXELS img).
  split; [reflexivity|].
  assert (Hw : lower (sticker_format_of
                        (normalized codec STICKER_MAX_PIXELS img))
               = "webp"%string
               <-> format img = Some "WEBP"%string
                   /\ size img = STICKER_MAX_PIXELS).
  { rewrite lower_format_webp. unfold normalized.
    destruct (size_eqb (size img) STICKER_MAX_PIXELS) eqn:E.
    - apply size_eqb_eq in E. split; [intros H; split; assumption|].
      intros [H _]. exact H.
    - cbn [format]. split; [discriminate|].
      intros [_ H]. apply size_eqb_eq in H. congruence. }
  split; [exact Hw|].
  destruct (sticker_format_cases (normalized codec STICKER_MAX_PIXELS img))
    as [E | E].
  - rewrite E. split; [|reflexivity].
    intros _ H. apply Hw in H. rewrite E in H. discriminate.
  - split.
    + rewrite E. discriminate.
    + intros H. exfalso. apply H. apply Hw. rewrite E. reflexivity.
Qed.

(** A 512x512 WEBP is kept as WEBP; a 300x300 WEBP is not. *)
Lemma webp_only_when_unresized_witness :
  (exists s,
     stickers (self (snd (add_sticker Tiny.codec Tiny.webp_512 Tiny.blank)))
     = [] ++ [s]
     /\ lower (sticker_format_of s) = "webp"%string)
  /\ (exists s,
        stickers (self (snd (add_sticker Tiny.codec Tiny.webp_300
                               Tiny.blank)))
        = [] ++ [s]
        /\ lower (sticker_format_of s) = "png"%string).
Proof.
  split.
  - destruct (webp_only_when_unresized Tiny.codec Tiny.webp_512
                (mkImage (512, 512) (Some "WEBP"%string) [9]) 6 Tiny.blank
                (snd (add_sticker Tiny.codec Tiny.webp_512 Tiny.blank)))
      as (s & Hs & Hw & _).
    + reflexivity.
    + vm_compute. reflexivity.
    + exists s. split; [exact Hs|]. apply Hw. split; reflexivity.
  - destruct (webp_only_when_unresized Tiny.codec Tiny.webp_300
                (mkImage (300, 300) (Some "WEBP"%string) [6; 7; 8]) 8
                Tiny.blank
                (snd (add_sticker Tiny.codec Tiny.webp_300 Tiny.blank)))
      as (s & Hs & _ & Hp).
    + reflexivity.
    + vm_compute. reflexivity.
    + exists s. split; [exact Hs|]. apply Hp. intros [_ H]. discriminate.
Defined.

(** ** An export that fails part way *)




(** ** Text that cannot be written *)

Lemma utf8_encode_cp_Some (c : Z) :
  utf8_encode_cp c <> None <-> encodable_cp c.
Proof.
  unfold utf8_encode_cp, encodable_cp, surrogate.
  destruct (c <? 0) eqn:H0;
    [apply Z.ltb_lt in H0; split; [congruence | lia]|].
  apply Z.ltb_ge in H0.
  destruct (c <? 128) eqn:H1;
    [apply Z.ltb_lt in H1; split; [lia | discriminate]|].
  apply Z.ltb_ge in H1.
  destruct (c <? 2048) eqn:H2;
    [apply Z.ltb_lt in H2; split; [lia | discriminate]|].
  apply Z.ltb_ge in H2.
  destruct (c <? 65536) eqn:H3.
  - apply Z.ltb_lt in H3.
    destruct ((55296 <=? c) && (c <=? 57343)) eqn:Hs.
    + apply andb_true_iff in Hs. destruct Hs as [Hs1 Hs2].
      apply Z.leb_le in Hs1. apply Z.leb_le in Hs2.
      split; [congruence | lia].
    + apply andb_false_iff in Hs.
      split; [|discriminate]. intros _.
      destruct Hs as [Hs | Hs]; apply Z.leb_gt in Hs; lia.
  - apply Z.ltb_ge in H3.
    destruct (c <? 1114112) eqn:H4.
    + apply Z.ltb_lt in H4. split; [lia | discriminate].
    + apply Z.ltb_ge in H4. split; [congruence | lia].
Qed.

(** [s.encode("utf-8")] succeeds exactly on strings of encodable code
    points. *)
Lemma utf8_encode_Some (s : str) :
  utf8_encode s <> None <-> Forall encodable_cp s.
Proof.
  induction s as [|c s IH]; cbn [utf8_encode].
  - split; [intros _; apply Forall_nil | discriminate].
  - split.
    + intros H. destruct (utf8_encode_cp c) as [x|] eqn:Hc; [|congruence].
      destruct (utf8_encode s) as [y|]; [|congruence].
      apply Forall_cons.
      * apply utf8_encode_cp_Some. congruence.
      * apply IH. discriminate.
    + intros H. inversion H as [|c' s' Hc Hs]; subst.
      apply utf8_encode_cp_Some in Hc. apply IH in Hs.
      destruct (utf8_encode_cp c); [|contradiction].
      destruct (utf8_encode s); [discriminate | contradiction].
Qed.

(** X6. [__init__] accepts any non-empty name and author, but [export]
    cannot write one that holds a lone surrogate: it raises
    [UnicodeEncodeError], with an empty archive when the author is at fault
    and with ['author.txt'] alone when only the name is. *)
Theorem export_rejects_surrogates (codec : ImageCodec) (w : World) (c : Z) :
  55296 <= c <= 57343 ->
  (In c (author (self w)) ->
   fst (export codec w) = inl UnicodeEncodeError
   /\ filelist (fp (snd (export codec w))) = [])
  /\ (In c (name (self w)) ->
      Forall encodable_cp (author (self w)) ->
      fst (export codec w) = inl UnicodeEncodeError
      /\ map filename (filelist (fp (snd (export codec w))))
         = ["author.txt"%string]).
Proof.
  intros Hc.
  assert (Hbad : forall s, In c s -> utf8_encode s = None).
  { intros s Hin. destruct (utf8_encode s) eqn:E; [|reflexivity].
    assert (Hf : Forall encodable_cp s)
      by (apply utf8_encode_Some; congruence).
    rewrite Forall_forall in Hf. destruct (Hf c Hin) as [_ Hn]. lia. }
  split.
  - intros Hin. rewrite export_run, (Hbad _ Hin). split; reflexivity.
  - intros Hin Ha. apply utf8_encode_Some in Ha. rewrite export_run.
    destruct (utf8_encode (author (self w))); [|contradiction].
    rewrite (Hbad _ Hin). split; reflexivity.
Qed.

(** A pack whose author is the single code point U+D800. *)
Lemma export_rejects_surrogates_witness :
  fst (__init__ Tiny.codec Tiny.Cats [55296] Tiny.png_200 Tiny.blank) = inr tt
  /\ fst (export Tiny.codec
            (snd (__init__ Tiny.codec Tiny.Cats [55296] Tiny.png_200
                    Tiny.blank)))
     = inl UnicodeEncodeError.
Proof.
  split; [vm_compute; reflexivity|].
  destruct (export_rejects_surrogates Tiny.codec
              (snd (__init__ Tiny.codec Tiny.Cats [55296] Tiny.png_200
                      Tiny.blank)) 55296) as [H _].
  - lia.
  - destruct H as [H _]; [left; reflexivity | exact H].
Defined.

(** ** When an export returns *)


(** ** Reading the images back by name *)

Lemma all_digits_string_of_uint (d : Decimal.uint) :
  all_digits (NilEmpty.string_of_uint d) = true.
Proof.
  induction d; cbn [NilEmpty.string_of_uint all_digits]; try reflexivity;
    rewrite IHd; reflexivity.
Qed.

(** Two names made of a number, a dot and a rest agree only when the
    numbers do. *)
Lemma digits_dot_split (s1 s2 r1 r2 : string) :
  all_digits s1 = true -> all_digits s2 = true ->
  (s1 ++ String "." r1)%string = (s2 ++ String "." r2)%string ->
  s1 = s2.
Proof.
  revert s2. induction s1 as [|c s1 IH]; intros [|c' s2] H1 H2 E.
  - reflexivity.
  - cbn [String.append] in E. injection E as <- _.
    cbn in H2. discriminate.
  - cbn [String.append] in E. injection E as -> _.
    cbn in H1. discriminate.
  - cbn [String.append] in E. injection E as <- E.
    cbn [all_digits] in H1, H2.
    apply andb_true_iff in H1, H2. destruct H1 as [_ H1], H2 as [_ H2].
    rewrite (IH s2 H1 H2 E). reflexivity.
Qed.

Lemma str_of_nat_inj (i j : nat) : str_of_nat i = str_of_nat j -> i = j.
Proof.
  unfold str_of_nat. intros E.
  apply (f_equal NilEmpty.uint_of_string) in E.
  rewrite !NilEmpty.usu in E. injection E as E.
  apply (f_equal Nat.of_uint) in E. rewrite !Unsigned.of_to in E. exact E.
Qed.

Lemma entry_name_inj (i j : nat) (s t : Image) :
  entry_name i s = entry_name j t -> i = j.
Proof.
  unfold entry_name. intros E. apply str_of_nat_inj.
  apply (digits_dot_split _ _ _ _
           (all_digits_string_of_uint _) (all_digits_string_of_uint _) E).
Qed.

Lemma zip_read_none (es : list ZipInfo) (nm : string) :
  Forall (fun e => String.eqb (filename e) nm = false) es ->
  zip_read es nm = None.
Proof.
  intros H. induction H as [|e es He _ IH]; [reflexivity|].
  cbn [zip_read]. rewrite IH, He. reflexivity.
Qed.

Lemma zip_read_app_later (l es : list ZipInfo) (nm : string) (d : bytes) :
  zip_read es nm = Some d -> zip_read (l ++ es) nm = Some d.
Proof.
  intros H. induction l as [|e l IH]; [exact H|].
  cbn [app zip_read]. rewrite IH. reflexivity.
Qed.

(** A name borne by one entry only is read as that entry. *)
Lemma zip_read_unique (l : list ZipInfo) (nm : string) (k : nat)
    (e : ZipInfo) :
  nth_error l k = Some e -> filename e = nm ->
  (forall j e', nth_error l j = Some e' -> filename e' = nm -> j = k) ->
  zip_read l nm = Some (content e).
Proof.
  revert k. induction l as [|e0 l IH]; intros k Hk Hn Hu.
  - destruct k; discriminate.
  - cbn [zip_read]. destruct k as [|k].
    + injection Hk as ->.
      rewrite zip_read_none.
      * rewrite Hn, String.eqb_refl. reflexivity.
      * apply Forall_nth_error. intros j e' Hj.
        destruct (String.eqb (filename e') nm) eqn:E; [|reflexivity].
        apply String.eqb_eq in E. specialize (Hu (S j) e' Hj E).
        discriminate.
    + cbn [nth_error] in Hk. rewrite (IH k Hk Hn); [reflexivity|].
      intros j e' Hj He. specialize (Hu (S j) e' Hj He).
      injection Hu as ->. reflexivity.
Qed.

(** X8. After an export that returned, reading the archive under the name
    of the sticker at position [k] gives that sticker as it was saved: no
    two entries of the archive share a name, so no sticker hides another. *)
Theorem sticker_readback (codec : ImageCodec) (w w' : World) (k : nat)
    (s : Image) :
  export codec w = (inr tt, w') ->
  nth_error (stickers (self w)) k = Some s ->
  exists out,
    encode codec s (sticker_format_of s) = Saved out
    /\ zip_read (filelist (fp w'))
         (str_of_nat (S k) ++ "." ++ lower (sticker_format_of s))
       = Some out.
Proof.
  intros He Hs. apply export_archive in He.
  destruct He as (a & n & es & _ & _ & Hfp & Hlen & Hk).
  destruct (Hk k s Hs) as (out & Ho & Hn).
  exists out. split; [exact Ho|].
  rewrite Hfp. cbn [filelist]. apply zip_read_app_later.
  apply (zip_read_unique es _ k
           (mkZipInfo (entry_name (S k) s) out ZIP_DEFLATED) Hn).
  - reflexivity.
  - intros j e' Hj Hname.
    assert (Hlt : (j < length (stickers (self w)))%nat)
      by (rewrite <- Hlen; apply nth_error_Some; congruence).
    destruct (nth_error (stickers (self w)) j) as [t|] eqn:Ht;
      [|apply nth_error_None in Ht; lia].
    destruct (Hk j t Ht) as (out' & _ & Hj').
    rewrite Hj' in Hj. injection Hj as <-. cbn [filename] in Hname.
    change (entry_name (S j) t = entry_name (S k) s) in Hname.
    apply entry_name_inj in Hname. injection Hname as ->. reflexivity.
Qed.

(** The spec's scenario: the third sticker, read back as ['3.png']. *)
Lemma sticker_readback_witness :
  exists out,
    zip_read
      (filelist (fp (snd (export Tiny.codec (snd (Tiny.scenario Tiny.blank))))))
      "3.png"
    = Some out.
Proof.
  destruct (sticker_readback Tiny.codec (snd (Tiny.scenario Tiny.blank))
              (snd (export Tiny.codec (snd (Tiny.scenario Tiny.blank))))
              2 (mkImage (512, 512) None [10]))
    as (out & _ & H).
  - vm_compute. reflexivity.
  - reflexivity.
  - exists out. exact H.
Defined.

(** X9. After an export that returned, reading ['0.png'] gives the bytes of
    the pack's tray buffer: no sticker entry bears that name, the stickers
    being numbered from 1. *)
Theorem tray_readback (codec : ImageCodec) (w w' : World) :
  export codec w = (inr tt, w') ->
  zip_read (filelist (fp w')) "0.png"
  = Some (getvalue (tray_image_buf (self w))).
Proof.
  intros He. apply export_archive in He.
  destruct He as (a & n & es & _ & _ & Hfp & Hlen & Hk).
  rewrite Hfp. cbn [filelist]. rewrite zip_read_app; [reflexivity|].
  apply Forall_nth_error. intros j e Hj.
  assert (Hlt : (j < length (stickers (self w)))%nat)
    by (rewrite <- Hlen; apply nth_error_Some; congruence).
  destruct (nth_error (stickers (self w)) j) as [t|] eqn:Ht;
    [|apply nth_error_None in Ht; lia].
  destruct (Hk j t Ht) as (out & _ & Hj').
  rewrite Hj' in Hj. injection Hj as <-. cbn [filename].
  destruct (String.eqb (entry_name (S j) t) "0.png") eqn:E; [|reflexivity].
  apply String.eqb_eq in E. exfalso.
  assert (H0 : str_of_nat (S j) = str_of_nat 0).
  { unfold entry_name in E.
    apply (digits_dot_split _ "0" _ "png"
             (all_digits_string_of_uint _) eq_refl E). }
  apply str_of_nat_inj in H0. discriminate.
Qed.

(** The spec's scenario. *)
Lemma tray_readback_witness :
  zip_read
    (filelist (fp (snd (export Tiny.codec (snd (Tiny.scenario Tiny.blank))))))
    "0.png"
  = Some (getvalue (tray_image_buf (self (snd (Tiny.scenario Tiny.blank))))).
Proof.
  apply (tray_readback Tiny.codec (snd (Tiny.scenario Tiny.blank))).
  vm_compute. reflexivity.
Defined.

(** ** What an export asks of Pillow *)

Lemma loop_calls (codec : ImageCodec) (l : list Image) (i : nat) (w : World) :
  exists saves,
    pillow (snd (for_enumerate l i (export_sticker codec) w))
    = pillow w ++ map Call_save saves
    /\ Forall (fun f => f = "PNG"%string \/ f = "WEBP"%string) saves
    /\ (fst (for_enumerate l i (export_sticker codec) w) = inr tt ->
        saves = map sticker_format_of l).
Proof.
  revert i w. induction l as [|s l IH]; intros i w.
  - exists []. cbn [for_enumerate map]. unfold ret. cbn [fst snd].
    rewrite app_nil_r. repeat split. apply Forall_nil.
  - rewrite loop_cons.
    destruct (encode codec s (sticker_format_of s)) as [out|partial].
    + destruct (IH (S i) (after_entry i s out w)) as (saves & Hp & Hf & Hs).
      exists (sticker_format_of s :: saves).
      rewrite Hp. unfold after_entry. cbn [pillow map].
      rewrite <- app_assoc. split; [reflexivity|].
      split; [apply Forall_cons; [apply sticker_format_cases | exact Hf]|].
      intros H. rewrite (Hs H). reflexivity.
    + exists [sticker_format_of s]. unfold after_entry.
      cbn [fst snd pillow map].
      split; [reflexivity|].
      split; [apply Forall_cons;
              [apply sticker_format_cases | apply Forall_nil]|].
      discriminate.
Qed.

(** X10. [export] never opens or resizes an image: all it asks of Pillow is
    to save, as PNG or as WEBP.  When it returns it has asked once per
    sticker, in the order of the sequence, so every export encodes every
    sticker anew. *)
Theorem export_only_saves (codec : ImageCodec) (w : World) :
  exists saves,
    pillow (snd (export codec w)) = pillow w ++ map Call_save saves
    /\ Forall (fun f => f = "PNG"%string \/ f = "WEBP"%string) saves
    /\ (fst (export codec w) = inr tt ->
        saves = map sticker_format_of (stickers (self w))).
Proof.
  rewrite export_run.
  destruct (utf8_encode (author (self w))) as [a|].
  - destruct (utf8_encode (name (self w))) as [n|].
    + apply (loop_calls codec (stickers (self w)) 1
               (mkWorld (self w) (archive_head a n (self w)) (pillow w))).
    + exists []. cbn [fst snd pillow map]. rewrite app_nil_r.
      split; [reflexivity|]. split; [apply Forall_nil | discriminate].
  - exists []. cbn [fst snd pillow map]. rewrite app_nil_r.
    split; [reflexivity|]. split; [apply Forall_nil | discriminate].
Qed.

(** ** Plain text is written as it is *)

Lemma utf8_encode_ascii (s : str) :
  Forall (fun c => 0 <= c < 128) s -> utf8_encode s = Some s.
Proof.
  intros H. induction H as [|c s Hc _ IH]; [reflexivity|].
  cbn [utf8_encode]. rewrite IH. unfold utf8_encode_cp.
  replace (c <? 0) with false by (symmetry; apply Z.ltb_ge; lia).
  replace (c <? 128) with true by (symmetry; apply Z.ltb_lt; lia).
  reflexivity.
Qed.

(** X11. When author and name are ASCII text, the entries ['author.txt']
    and ['title.txt'] of an export hold them byte for byte, one byte per
    character. *)
Theorem ascii_metadata_verbatim (codec : ImageCodec) (w : World) :
  Forall (fun c => 0 <= c < 128) (author (self w)) ->
  Forall (fun c => 0 <= c < 128) (name (self w)) ->
  nth_error (filelist (fp (snd (export codec w)))) 0
  = Some (mkZipInfo "author.txt" (author (self w)) ZIP_DEFLATED)
  /\ nth_error (filelist (fp (snd (export codec w)))) 1
     = Some (mkZipInfo "title.txt" (name (self w)) ZIP_DEFLATED).
Proof.
  intros Ha Hn. rewrite export_run.
  rewrite (utf8_encode_ascii _ Ha), (utf8_encode_ascii _ Hn).
  assert (Hpre : forall l i w0,
            exists es,
              filelist (fp (snd (for_enumerate l i (export_sticker codec) w0)))
              = filelist (fp w0) ++ es).
  { induction l as [|s l IH]; intros i w0.
    - exists []. rewrite app_nil_r. reflexivity.
    - rewrite loop_cons.
      destruct (encode codec s (sticker_format_of s)) as [out|partial].
      + destruct (IH (S i) (after_entry i s out w0)) as [es He].
        rewrite He. unfold after_entry. cbn [fp filelist].
        eexists. rewrite <- app_assoc. reflexivity.
      + unfold after_entry. cbn [snd fp filelist]. eexists. reflexivity. }
  destruct (Hpre (stickers (self w)) 1%nat
              (mkWorld (self w)
                 (archive_head (author (self w)) (name (self w)) (self w))
                 (pillow w))) as [es He].
  rewrite He. cbn [fp filelist archive_head app nth_error].
  split; reflexivity.
Qed.

(** The spec's scenario. *)
Lemma ascii_metadata_verbatim_witness :
  nth_error (filelist (fp (snd (export Tiny.codec
                                  (snd (Tiny.scenario Tiny.blank)))))) 0
  = Some (mkZipInfo "author.txt" [65; 108; 105; 99; 101] ZIP_DEFLATED)
  /\ nth_error (filelist (fp (snd (export Tiny.codec
                                     (snd (Tiny.scenario Tiny.blank)))))) 1
     = Some (mkZipInfo "title.txt" [67; 97; 116; 115] ZIP_DEFLATED).
Proof.
  apply (ascii_metadata_verbatim Tiny.codec (snd (Tiny.scenario Tiny.blank))).
  - change (Forall (fun c => 0 <= c < 128) [65; 108; 105; 99; 101]).
    repeat (apply Forall_cons; [lia|]). apply Forall_nil.
  - change (Forall (fun c => 0 <= c < 128) [67; 97; 116; 115]).
    repeat (apply Forall_cons; [lia|]). apply Forall_nil.
Defined.

(** ** The outcomes of adding a sticker *)


(** ** Stickers are kept in the order they are added *)

(** X13. A caller adding decodable images one after the other, with room
    for all of them, finds them in the pack in the order of the calls, after
    the stickers that were there: each as decoded when it was 512x512, and
    resized (so without format) otherwise. *)
Theorem add_all_in_order (codec : ImageCodec) (ds : list bytes) (w : World) :
  Forall (decodable codec) ds ->
  (length (stickers (self w)) + length ds <= 31)%nat ->
  exists more,
    stickers (self (snd (add_all codec ds w))) = stickers (self w) ++ more
    /\ Forall2 (fun d s =>
                  exists img n,
                    decode codec d = Some (img, n)
                    /\ s = normalized codec STICKER_MAX_PIXELS img)
               ds more.
Proof.
  intros H. revert w. induction H as [|d ds Hd _ IH]; intros w Hn.
  - exists []. rewrite app_nil_r. split; [reflexivity | apply Forall2_nil].
  - cbn [length] in Hn. cbn [add_all]. unfold bind.
    rewrite add_sticker_run.
    replace (length (stickers (self w)) <=? 30)%nat with true
      by (symmetry; apply Nat.leb_le; lia).
    unfold decodable in Hd.
    destruct (decode codec d) as [[img n]|] eqn:Ed; [|contradiction].
    destruct (IH (mkWorld
                    (mkStickerPack (name (self w)) (author (self w))
                       (stickers (self w)
                          ++ [normalized codec STICKER_MAX_PIXELS img])
                       (tray_image_buf (self w)))
                    (fp w)
                    (pillow w ++ open_calls d STICKER_MAX_PIXELS img)))
      as (more & Hm & Hf).
    { cbn [self stickers]. rewrite length_app. cbn [length]. lia. }
    cbn [self stickers] in Hm.
    exists (normalized codec STICKER_MAX_PIXELS img :: more).
    split; [rewrite Hm, <- app_assoc; reflexivity|].
    apply Forall2_cons; [|exact Hf].
    exists img, n. split; [exact Ed | reflexivity].
Qed.

(** The three stickers of the spec's scenario. *)
Lemma add_all_in_order_witness :
  exists more,
    stickers (self (snd (add_all Tiny.codec
                           [Tiny.png_512; Tiny.webp_300; Tiny.png_64]
                           Tiny.blank)))
    = [] ++ more
    /\ length more = 3%nat.
Proof.
  destruct (add_all_in_order Tiny.codec
              [Tiny.png_512; Tiny.webp_300; Tiny.png_64] Tiny.blank)
    as (more & Hm & Hf).
  - repeat (apply Forall_cons; [vm_compute; discriminate|]). apply Forall_nil.
  - vm_compute. lia.
  - exists more. split; [exact Hm|].
    apply Forall2_length in Hf. rewrite <- Hf. reflexivity.
Defined.
